(** * Status codes and the unary call pipeline of the gRPC client

    A shallow embedding of the status-code enumeration ([Code], its text
    round trip and display names), of the HTTP-status table, and of the
    client's HTTP exchange ([call]) with its header and trailer error
    extraction ([extractError]), followed by the properties the
    specification states about them. *)

From Stdlib Require Import ZArith Lia Ascii String List.
From stdpp Require Import base option list gmap strings.

Local Open Scope string_scope.
Local Open Scope Z_scope.

(** ** The parts of Go's [strconv] the client relies on

    Strings are byte sequences, as in Go; integers are [Z] with the
    wrap-around of the machine type written out.  Every call in the
    sources passes base 10, so the base is fixed here. *)

Module strconv.

Inductive NumError : Set := ErrSyntax | ErrRange.

(** [strconv.IntSize]: the size of [int] on the 64-bit targets. *)
Definition intSize : Z := 64.
Definition maxUint64 : Z := 2 ^ 64 - 1.

Definition byteVal (c : ascii) : Z := Z.of_N (N_of_ascii c).
Definition byteChr (b : Z) : ascii := ascii_of_N (Z.to_N b).

Definition isDigit (c : ascii) : bool :=
  (byteVal "0" <=? byteVal c) && (byteVal c <=? byteVal "9").

Definition toInt64 (z : Z) : Z := (z + 2 ^ 63) mod 2 ^ 64 - 2 ^ 63.

(** The digit loop of [ParseUint]: [n] is the [uint64] accumulator.  In
    base 10 a letter is a digit value of at least 10 and an underscore is
    only skipped for base 0, so every byte that is not a decimal digit is
    a syntax error. *)
Fixpoint parseUintLoop (maxVal : Z) (s : string) (n : Z) : Z * option NumError :=
  match s with
  | EmptyString => (n, None)
  | String c rest =>
      if isDigit c then
        let d := byteVal c - byteVal "0" in
        if n >=? maxUint64 / 10 + 1 then (maxVal, Some ErrRange)
        else
          let n10 := n * 10 in
          let n1 := (n10 + d) mod 2 ^ 64 in
          if (n1 <? n10) || (n1 >? maxVal) then (maxVal, Some ErrRange)
          else parseUintLoop maxVal rest n1
      else (0, Some ErrSyntax)
  end.

Definition ParseUint (s : string) (bitSize : Z) : Z * option NumError :=
  if decide (s = "") then (0, Some ErrSyntax)
  else
    let bitSize := if bitSize =? 0 then intSize else bitSize in
    parseUintLoop (2 ^ bitSize - 1) s 0.

Definition ParseInt (s : string) (bitSize : Z) : Z * option NumError :=
  match s with
  | EmptyString => (0, Some ErrSyntax)
  | String c0 rest =>
      let neg := bool_decide (c0 = "-"%char) in
      let s1 := if bool_decide (c0 = "+"%char) || neg then rest else s in
      let '(un, err) := ParseUint s1 bitSize in
      match err with
      | Some ErrSyntax => (0, Some ErrSyntax)
      | _ =>
          let bitSize := if bitSize =? 0 then intSize else bitSize in
          let cutoff := 2 ^ (bitSize - 1) in
          if negb neg && (un >=? cutoff) then (cutoff - 1, Some ErrRange)
          else if neg && (un >? cutoff) then (- cutoff, Some ErrRange)
          else
            let n := toInt64 un in
            (if neg then toInt64 (- n) else n, None)
      end
  end.

(** The fast path of [Atoi]: [ch -= '0'] wraps in a byte; the fewer than
    19 bytes it is run on cannot overflow the [int] accumulator. *)
Fixpoint atoiLoop (s : string) (n : Z) : Z * option NumError :=
  match s with
  | EmptyString => (n, None)
  | String c rest =>
      let ch := (byteVal c - byteVal "0") mod 256 in
      if ch >? 9 then (0, Some ErrSyntax)
      else atoiLoop rest (n * 10 + ch)
  end.

Definition Atoi (s : string) : Z * option NumError :=
  let sLen := Z.of_nat (String.length s) in
  if (0 <? sLen) && (sLen <? 19) then
    match s with
    | EmptyString => (0, Some ErrSyntax)
    | String c0 rest =>
        let signed := bool_decide (c0 = "-"%char) || bool_decide (c0 = "+"%char) in
        let s1 := if signed then rest else s in
        if signed && (Z.of_nat (String.length s1) <? 1) then (0, Some ErrSyntax)
        else
          match atoiLoop s1 0 with
          | (n, None) => (if bool_decide (c0 = "-"%char) then - n else n, None)
          | (_, Some e) => (0, Some e)
          end
    end
  else ParseInt s 0.

(** Decimal digits of [u], most significant first, prepended to [acc];
    [fuel] bounds the number of digits. *)
Fixpoint formatDigits (fuel : nat) (u : Z) (acc : string) : string :=
  match fuel with
  | O => acc
  | S fuel' =>
      let acc' := String (byteChr (byteVal "0" + u mod 10)) acc in
      if u <? 10 then acc' else formatDigits fuel' (u / 10) acc'
  end.

(** [FormatUint u 10] for a non-negative [u]. *)
Definition FormatUint (u : Z) : string :=
  formatDigits (S (Z.to_nat (Z.log2 u))) u "".

(** [Itoa i] is [FormatInt (int64 i) 10]. *)
Definition Itoa (i : Z) : string :=
  if i <? 0 then String "-" (FormatUint (- i)) else FormatUint i.

End strconv.

(** ** Go error values

    An [error] is kept as the data it was built from: the format string and
    its operands rather than the rendered text. *)

Inductive fmtarg : Type :=
| ArgString (s : string)      (* a string operand *)
| ArgInt (n : Z)              (* an integer operand *)
| ArgCode (c : Z)             (* a [Code] operand, rendered by [Code.String] *)
| ArgDuration (d : Z).        (* a [time.Duration] operand, in nanoseconds *)

Inductive goerror : Type :=
| ErrorsNew (text : string)                        (* [errors.New] *)
| FmtErrorf (format : string) (args : list fmtarg) (* [fmt.Errorf], no [%w] *)
| FmtErrorfW (format : string) (wrapped : goerror) (* [fmt.Errorf] with one [%w] operand *)
| ContextCanceled                                  (* [context.Canceled] *)
| ContextDeadlineExceeded.                         (* [context.DeadlineExceeded] *)

Inductive result (A : Type) : Type :=
| Ok (a : A)
| Err (e : goerror).
Arguments Ok {A} a.
Arguments Err {A} e.

#[global] Instance fmtarg_eq_dec : EqDecision fmtarg.
Proof. solve_decision. Defined.

#[global] Instance goerror_eq_dec : EqDecision goerror.
Proof. solve_decision. Defined.

(** [errors.Is]: walks the chain of wrapped errors. *)
Fixpoint errors_Is (err target : goerror) : bool :=
  if decide (err = target) then true
  else
    match err with
    | FmtErrorfW _ wrapped => errors_Is wrapped target
    | _ => false
    end.

(** ** Status codes (src/unnamed/part_000) *)

(** [type Code uint32]: a [Z] in [0, 2^32). *)
Abbreviation Code := Z (only parsing).

(** The conversion [Code(n)] of an integer to [uint32]. *)
Definition toCode (n : Z) : Code := n mod 2 ^ 32.

Definition CodeOK : Code := 0.
Definition CodeCanceled : Code := 1.
Definition CodeUnknown : Code := 2.
Definition CodeInvalidArgument : Code := 3.
Definition CodeDeadlineExceeded : Code := 4.
Definition CodeNotFound : Code := 5.
Definition CodeAlreadyExists : Code := 6.
Definition CodePermissionDenied : Code := 7.
Definition CodeResourceExhausted : Code := 8.
Definition CodeFailedPrecondition : Code := 9.
Definition CodeAborted : Code := 10.
Definition CodeOutOfRange : Code := 11.
Definition CodeUnimplemented : Code := 12.
Definition CodeInternal : Code := 13.
Definition CodeUnavailable : Code := 14.
Definition CodeDataLoss : Code := 15.
Definition CodeUnauthenticated : Code := 16.

Definition minCode : Code := CodeOK.
Definition maxCode : Code := CodeUnauthenticated.

Definition stringToCodeEntries : list (string * Code) :=
  [ ("OK", CodeOK);
    ("CANCELLED", CodeCanceled);
    ("UNKNOWN", CodeUnknown);
    ("INVALID_ARGUMENT", CodeInvalidArgument);
    ("DEADLINE_EXCEEDED", CodeDeadlineExceeded);
    ("NOT_FOUND", CodeNotFound);
    ("ALREADY_EXISTS", CodeAlreadyExists);
    ("PERMISSION_DENIED", CodePermissionDenied);
    ("RESOURCE_EXHAUSTED", CodeResourceExhausted);
    ("FAILED_PRECONDITION", CodeFailedPrecondition);
    ("ABORTED", CodeAborted);
    ("OUT_OF_RANGE", CodeOutOfRange);
    ("UNIMPLEMENTED", CodeUnimplemented);
    ("INTERNAL", CodeInternal);
    ("UNAVAILABLE", CodeUnavailable);
    ("DATA_LOSS", CodeDataLoss);
    ("UNAUTHENTICATED", CodeUnauthenticated) ].

Definition stringToCode : gmap string Z := list_to_map stringToCodeEntries.

Definition httpToCode : gmap Z Z :=
  list_to_map
    [ (400, CodeInternal);
      (401, CodeUnauthenticated);
      (403, CodePermissionDenied);
      (404, CodeUnimplemented);
      (429, CodeUnavailable);
      (502, CodeUnavailable);
      (503, CodeUnavailable);
      (504, CodeUnavailable) ].

(** [Code.MarshalText]: the decimal numeral of a code in range. *)
Definition MarshalText (c : Code) : result string :=
  if (c <? minCode) || (c >? maxCode) then
    Err (FmtErrorf "invalid code %v" [ArgCode c])
  else Ok (strconv.Itoa c).

(** [Code.UnmarshalText]: [Ok n] stores [n] in the receiver and returns
    [nil]; [Err] leaves the receiver as it was. *)
Definition UnmarshalText (b : string) : result Code :=
  match stringToCode !! b with
  | Some n => Ok n
  | None =>
      match strconv.ParseUint b 32 with
      | (_, Some _) => Err (FmtErrorf "invalid code %q" [ArgString b])
      | (n, None) =>
          let code := toCode n in
          if (code <? minCode) || (code >? maxCode) then
            Err (FmtErrorf "invalid code %v" [ArgInt n])
          else Ok code
      end
  end.

(** [Code.String] (the bare name is the constructor of Rocq's strings); the
    last line is [fmt.Sprintf("Code(%d)", c)]. *)
Definition Code_String (c : Code) : string :=
  if c =? CodeOK then "OK"
  else if c =? CodeCanceled then "Canceled"
  else if c =? CodeUnknown then "Unknown"
  else if c =? CodeInvalidArgument then "InvalidArgument"
  else if c =? CodeDeadlineExceeded then "DeadlineExceeded"
  else if c =? CodeNotFound then "NotFound"
  else if c =? CodeAlreadyExists then "AlreadyExists"
  else if c =? CodePermissionDenied then "PermissionDenied"
  else if c =? CodeResourceExhausted then "ResourceExhausted"
  else if c =? CodeFailedPrecondition then "FailedPrecondition"
  else if c =? CodeAborted then "Aborted"
  else if c =? CodeOutOfRange then "OutOfRange"
  else if c =? CodeUnimplemented then "Unimplemented"
  else if c =? CodeInternal then "Internal"
  else if c =? CodeUnavailable then "Unavailable"
  else if c =? CodeDataLoss then "DataLoss"
  else if c =? CodeUnauthenticated then "Unauthenticated"
  else "Code(" +:+ strconv.FormatUint c +:+ ")".

(** ** Protocol errors, headers and the call's collaborators (src/client.go) *)

(** [http.Header]: a map from canonical header names to their values. *)
Abbreviation Header := (gmap string (list string)) (only parsing).

(** [Header.Get]: the first value of the key, or the empty string.  The
    client only passes keys that are already in canonical form. *)
Definition Get (h : Header) (key : string) : string :=
  match h !! key with
  | Some (v :: _) => v
  | _ => ""
  end.

(** [Header.Set] ([Set] is a keyword of Rocq): replaces the values of the
    key by the single value. *)
Definition Set_ (h : Header) (key value : string) : Header := <[key := [value]]> h.

(** A detail payload ([anypb.Any]). *)
Record Any : Type := mkAny { TypeUrl : string; Value : list Byte.byte }.

(** [statuspb.Status], with its fields [Code] (an [int32]), [Message] and
    [Details]. *)
Record Status : Type := mkStatus {
  Status_Code : Z;
  Status_Message : string;
  Status_Details : list Any
}.

(** Modelled from the spec: the [Error] struct of the repository is not
    among the sources; section 3 gives it a code, a message (here the Go
    error it was built from) and a sequence of detail payloads. *)
Record Error : Type := mkError {
  code : Code;
  err : goerror;
  details : list Any
}.

(** Modelled from the spec: the construction helper [wrap] is not among the
    sources; section 4.2: code plus a pre-existing error. *)
Definition wrap (c : Code) (e : goerror) : Error :=
  {| code := c; err := e; details := [] |}.

(** Modelled from the spec: the construction helper [errorf] is not among
    the sources; section 4.2: code plus a formatted message.  [errorfW] is
    the same helper called with a format whose single verb is [%w]. *)
Definition errorf (c : Code) (template : string) (args : list fmtarg) : Error :=
  wrap c (FmtErrorf template args).

Definition errorfW (c : Code) (template : string) (e : goerror) : Error :=
  wrap c (FmtErrorfW template e).

(** Modelled from the spec: the compression names and the advertised
    accept-encoding value are constants declared outside the sources
    (sections 3 and 4.5). *)
Definition CompressionIdentity : string := "identity".
Definition CompressionGzip : string := "gzip".
Definition acceptEncodingValue : string := "identity,gzip".

(** Modelled from the spec: client.go reads the HTTP-status table under the
    name [httpToGRPC], which the sources do not declare; section 4.1 gives
    the table, the one part_000 declares as [httpToCode]. *)
Definition httpToGRPC : gmap Z Z := httpToCode.

(** Modelled from the spec: [Specification] and the call metadata
    ([CallMeta]) are declared outside the sources (sections 3 and 4.5).  The
    metadata's two header sets are references; their contents live in the
    [Store] below. *)
Record Specification : Type := mkSpecification {
  Method : string;
  RequestCompression : string
}.

Record CallMetadata : Type := mkCallMetadata { Spec : Specification }.

(** [context.Context], as far as [call] looks at it: the call metadata
    attached to it and its deadline (nanoseconds on the clock of
    [time_Now]). *)
Record Context : Type := mkContext {
  ctxMeta : option CallMetadata;
  ctxDeadline : option Z
}.

Definition CallMeta (ctx : Context) : option CallMetadata := ctxMeta ctx.
Definition Deadline (ctx : Context) : option Z := ctxDeadline ctx.

(** [callCfg]; [call] reads [MaxResponseBytes] only. *)
Record callCfg : Type := mkCallCfg {
  EnableGzipRequest : bool;
  MaxResponseBytes : Z
}.

Record Request : Type := mkRequest {
  reqMethod : string;
  reqURL : string;
  reqHeader : gmap string (list string);
  reqBody : list Byte.byte
}.

(** [http.Response]; [Trailer] holds the trailers as they read once the body
    has been read to its end. *)
Record Response : Type := mkResponse {
  StatusCode : Z;
  respHeader : gmap string (list string);
  Trailer : gmap string (list string);
  respBody : list Byte.byte
}.

(** [Client]; [doer] is the [Doer] interface, whose one method is [Do]. *)
Record Client : Type := mkClient {
  doer : Request -> result Response;
  url : string;
  method : string
}.

(** The collaborators of the call pipeline that live outside the sources:
    the message type and its length-prefixed codec, the header codecs, the
    timeout encoding, URL parsing and the clock. *)
Class Runtime : Type := {
  Message : Type;
  percentDecode : string -> string;
  decodeBinaryHeader : string -> result (list Byte.byte);
  proto_Unmarshal : list Byte.byte -> result Status;
  encodeTimeout : Z -> result string;
  marshalLPM : Message -> string -> Z -> result (list Byte.byte);
  unmarshalLPM : list Byte.byte -> string -> Z -> result Message;
  url_Parse : string -> result string;
  time_Now : Z
}.

(** What [call] does to the world, in order. *)
Inductive Event : Type :=
| EvMarshal (compression : string)
| EvDo (request : Request)
| EvUnmarshal (compression : string) (maxBytes : Z)
| EvDrain
| EvClose.

Section Pipeline.
Context `{RT : Runtime}.

(** The state a call works on: the trace of its effects, the contents of
    the metadata's request and response header sets, and the response
    message [res]. *)
Record Store : Type := mkStore {
  trace : list Event;
  mdRequest : gmap string (list string);
  mdResponse : gmap string (list string);
  res : Message
}.

(** State with early return of an [Error]. *)
Definition M (A : Type) : Type := Store -> Store * (A + Error).

Definition ret {A} (a : A) : M A := fun s => (s, inl a).
Definition throw {A} (e : Error) : M A := fun s => (s, inr e).
Definition bind {A B} (m : M A) (k : A -> M B) : M B :=
  fun s =>
    match m s with
    | (s', inl a) => k a s'
    | (s', inr e) => (s', inr e)
    end.
Definition emit (ev : Event) : M unit :=
  fun s => (mkStore (trace s ++ [ev]) (mdRequest s) (mdResponse s) (res s), inl tt).
Definition getRequestHeader : M (gmap string (list string)) :=
  fun s => (s, inl (mdRequest s)).
Definition setRequestHeader (key value : string) : M unit :=
  fun s => (mkStore (trace s) (Set_ (mdRequest s) key value) (mdResponse s) (res s), inl tt).
Definition setResponseMeta (h : gmap string (list string)) : M unit :=
  fun s => (mkStore (trace s) (mdRequest s) h (res s), inl tt).
Definition setRes (m : Message) : M unit :=
  fun s => (mkStore (trace s) (mdRequest s) (mdResponse s) m, inl tt).
(** [defer]: [cleanup] runs on every exit of [m]. *)
Definition deferred {A} (cleanup : M unit) (m : M A) : M A :=
  fun s =>
    match m s with
    | (s', r) => (fst (cleanup s'), r)
    end.

End Pipeline.

Declare Scope call_scope.
Delimit Scope call_scope with call.
Notation "x <- m ;; k" := (bind m (fun x => k))
  (at level 100, m at next level, right associativity) : call_scope.
Notation "m ;; k" := (bind m (fun _ => k))
  (at level 100, right associativity) : call_scope.

Section Exchange.
Context `{RT : Runtime}.
Local Open Scope call_scope.

(** [time.Until]: the difference to the clock, saturated to an [int64]. *)
Definition time_Until (deadline : Z) : Z :=
  Z.max (- 2 ^ 63) (Z.min (2 ^ 63 - 1) (deadline - time_Now)).

(** [http.NewRequestWithContext] for a non-nil context and a valid
    method: it fails when the URL does not parse. *)
Definition NewRequestWithContext (ctx : Context) (meth target : string)
    (body : list Byte.byte) : result Request :=
  match url_Parse target with
  | Err e => Err e
  | Ok u => Ok (mkRequest meth u ∅ body)
  end.

Definition extractError (h : Header) : option Error :=
  let codeHeader := Get h "Grpc-Status" in
  let codeIsSuccess :=
    bool_decide (codeHeader = "") || bool_decide (codeHeader = "0") in
  if codeIsSuccess then None
  else
    match strconv.Atoi codeHeader with
    | (_, Some _) =>
        Some (errorf CodeUnknown
                "gRPC protocol error: got invalid error code %q" [ArgString codeHeader])
    | (code, None) =>
        let message := percentDecode (Get h "Grpc-Message") in
        let ret := wrap (toCode code) (ErrorsNew message) in
        let detailsBinaryEncoded := Get h "Grpc-Status-Details-Bin" in
        if 0 <? Z.of_nat (String.length detailsBinaryEncoded) then
          match decodeBinaryHeader detailsBinaryEncoded with
          | Err e =>
              Some (errorfW CodeUnknown
                      "server returned invalid grpc-error-details-bin trailer: %w" e)
          | Ok detailsBinary =>
              match proto_Unmarshal detailsBinary with
              | Err e =>
                  Some (errorfW CodeUnknown
                          "server returned invalid protobuf for error details: %w" e)
              | Ok status =>
                  Some {| details := Status_Details status;
                          code := toCode (Status_Code status);
                          err := ErrorsNew (Status_Message status) |}
              end
          end
        else Some ret
    end.

(** Lines 156 to 159 of [call]: the response compression, the identity
    when the header is not set. *)
Definition responseCompression (response : Response) : string :=
  let compression := Get (respHeader response) "Grpc-Encoding" in
  if bool_decide (compression = "") then CompressionIdentity else compression.

(** The part of [call] after the transport has returned [response]
    (lines 147 to 189); the two deferred calls are in [call]. *)
Definition call_response (cfg : callCfg) (response : Response) : M unit :=
  setResponseMeta (respHeader response) ;;
  if negb (StatusCode response =? 200) then
    let code :=
      match httpToGRPC !! StatusCode response with
      | Some c => c
      | None => CodeUnknown
      end in
    throw (errorf code "HTTP status %v" [ArgInt (StatusCode response)])
  else
    let compression := responseCompression response in
    if bool_decide (compression = CompressionIdentity)
       || bool_decide (compression = CompressionGzip) then
      match extractError (respHeader response) with
      | Some e => throw e
      | None =>
          emit (EvUnmarshal compression (MaxResponseBytes cfg)) ;;
          unmarshalErr <-
            match unmarshalLPM (respBody response) compression (MaxResponseBytes cfg) with
            | Ok m => setRes m ;; ret None
            | Err e => ret (Some e)
            end ;;
          emit EvDrain ;;
          let serverErr := extractError (Trailer response) in
          match serverErr, unmarshalErr with
          | Some e, _ => throw e
          | None, Some e =>
              throw (errorfW CodeUnknown "server returned invalid protobuf: %w" e)
          | None, None => ret tt
          end
      end
    else
      throw (errorf CodeInternal
               "unknown compression %q: accepted grpc-encoding values are %v"
               [ArgString compression; ArgString acceptEncodingValue]).

(** [Client.call]: [inl tt] is the [nil] return. *)
Definition call (c : Client) (ctx : Context) (req : Message) (cfg : callCfg) : M unit :=
  match CallMeta ctx with
  | None => throw (errorf CodeInternal "no call metadata available on context" [])
  | Some md =>
      match Deadline ctx with
      | Some deadline =>
          let untilDeadline := time_Until deadline in
          if untilDeadline <=? 0 then
            throw (errorf CodeDeadlineExceeded
                     "no time to make RPC: timeout is %v" [ArgDuration untilDeadline])
          else
            match encodeTimeout untilDeadline with
            | Ok enc => setRequestHeader "Grpc-Timeout" enc
            | Err _ => ret tt
            end
      | None => ret tt
      end ;;
      emit (EvMarshal (RequestCompression (Spec md))) ;;
      match marshalLPM req (RequestCompression (Spec md)) 0 with
      | Err e => throw (errorfW CodeInvalidArgument "can't marshal request as protobuf: %w" e)
      | Ok body =>
          match NewRequestWithContext ctx "POST" (url c) body with
          | Err e => throw (errorfW CodeInternal "can't create HTTP request: %w" e)
          | Ok request0 =>
              raw <- getRequestHeader ;;
              let request :=
                mkRequest (reqMethod request0) (reqURL request0) raw (reqBody request0) in
              emit (EvDo request) ;;
              match doer c request with
              | Err e =>
                  if errors_Is e ContextCanceled then
                    throw (errorf CodeCanceled "context canceled" [])
                  else if errors_Is e ContextDeadlineExceeded then
                    throw (errorf CodeDeadlineExceeded "context deadline exceeded" [])
                  else throw (wrap CodeUnknown e)
              | Ok response =>
                  deferred (emit EvDrain ;; emit EvClose) (call_response cfg response)
              end
          end
      end
  end.

(** A call starts from the request header set its metadata refers to, an
    empty response header set, the caller's response message and no
    effects yet. *)
Definition runCall (c : Client) (ctx : Context) (req : Message) (cfg : callCfg)
    (requestHeader : Header) (res0 : Message) : Store * (unit + Error) :=
  call c ctx req cfg (mkStore [] requestHeader ∅ res0).

(** The [*Error] a call returns: [None] is [nil]. *)
Definition callError (c : Client) (ctx : Context) (req : Message) (cfg : callCfg)
    (requestHeader : Header) (res0 : Message) : option Error :=
  match snd (runCall c ctx req cfg requestHeader res0) with
  | inl _ => None
  | inr e => Some e
  end.

(** The effects of a call, in order. *)
Definition callTrace (c : Client) (ctx : Context) (req : Message) (cfg : callCfg)
    (requestHeader : Header) (res0 : Message) : list Event :=
  trace (fst (runCall c ctx req cfg requestHeader res0)).

(** Step 9 of section 4.6: the outcome once the body has been read. *)
Definition resolution (cfg : callCfg) (response : Response) : option Error :=
  match extractError (Trailer response) with
  | Some e => Some e
  | None =>
      match unmarshalLPM (respBody response) (responseCompression response)
              (MaxResponseBytes cfg) with
      | Err e => Some (errorfW CodeUnknown "server returned invalid protobuf: %w" e)
      | Ok _ => None
      end
  end.

End Exchange.

(** The HTTP-status table as section 4.1 of the specification words it. *)
Definition httpStatusTable (status : Z) : Code :=
  if status =? 400 then CodeInternal
  else if status =? 401 then CodeUnauthenticated
  else if status =? 403 then CodePermissionDenied
  else if status =? 404 then CodeUnimplemented
  else if (status =? 429) || (status =? 502) || (status =? 503) || (status =? 504)
  then CodeUnavailable
  else CodeUnknown.

(** ** A concrete runtime and client, to run the pipeline on

    Messages are strings sent as their bytes; a binary header decodes to its
    bytes unless it contains an exclamation mark; a status payload carries
    its code as the digit in its first byte. *)
Definition demoRuntime : Runtime := {|
  Message := string;
  percentDecode := fun s => s;
  decodeBinaryHeader := fun s =>
    match index 0 "!" s with
    | Some _ => Err (ErrorsNew "illegal base64 data")
    | None => Ok (list_byte_of_string s)
    end;
  proto_Unmarshal := fun b =>
    match b with
    | [] => Err (ErrorsNew "proto: cannot parse invalid wire-format data")
    | x :: rest =>
        Ok (mkStatus (Z.of_N (Byte.to_N x) - 48) "from details" [mkAny "detail" rest])
    end;
  encodeTimeout := fun d => Ok (strconv.Itoa d +:+ "n");
  marshalLPM := fun m _ _ => Ok (list_byte_of_string m);
  unmarshalLPM := fun b _ _ =>
    match b with
    | [] => Err (ErrorsNew "unexpected EOF")
    | _ => Ok (string_of_list_byte b)
    end;
  url_Parse := fun u => Ok u;
  time_Now := 1000
|}.

(** A client whose transport answers every request with [response]. *)
Definition demoClient (response : Response) : Client :=
  mkClient (fun _ => Ok response) "http://localhost/ping.v1.Ping/Ping" "ping.v1.Ping.Ping".

Definition demoHeader (entries : list (string * string)) : gmap string (list string) :=
  list_to_map (prod_map id (fun v => [v]) <$> entries).

Definition demoContext (deadline : option Z) : Context :=
  mkContext (Some (mkCallMetadata (mkSpecification "ping.v1.Ping.Ping" "identity"))) deadline.

Definition demoCfg : callCfg := mkCallCfg false 0.

(** The request the demo client's transport receives for the message ping
    sent without a deadline from an empty request header set. *)
Definition demoSent : Request :=
  mkRequest "POST" "http://localhost/ping.v1.Ping/Ping" ∅ (list_byte_of_string "ping").

(** The error and the effects of that call when the transport answers with
    [response]. *)
Definition demoRun (response : Response) : option Error * list Event :=
  (callError (RT := demoRuntime) (demoClient response) (demoContext None)
     "ping" demoCfg ∅ "",
   callTrace (RT := demoRuntime) (demoClient response) (demoContext None)
     "ping" demoCfg ∅ "").

(** The spec string of a code: the key under which [stringToCode] holds it. *)
Definition specString (c : Code) : option string :=
  fst <$> List.find (fun entry => snd entry =? c) stringToCodeEntries.

(** ** Decimal numerals, to state what the parsers accept *)

Fixpoint allDigits (s : string) : bool :=
  match s with
  | EmptyString => true
  | String c rest => strconv.isDigit c && allDigits rest
  end.

(** A non-empty run of decimal digits. *)
Definition isNumeral (s : string) : bool :=
  negb (bool_decide (s = "")) && allDigits s.

(** A numeral with an optional sign in front. *)
Definition isSignedNumeral (s : string) : bool :=
  match s with
  | EmptyString => false
  | String c rest =>
      if bool_decide (c = "-"%char) || bool_decide (c = "+"%char)
      then isNumeral rest else isNumeral s
  end.

Fixpoint digitsValue (s : string) (acc : Z) : Z :=
  match s with
  | EmptyString => acc
  | String c rest =>
      digitsValue rest (acc * 10 + (strconv.byteVal c - strconv.byteVal "0"))
  end.

(** The number a numeral denotes. *)
Definition numeralValue (s : string) : Z := digitsValue s 0.

(** The number a signed numeral denotes. *)
Definition signedNumeralValue (s : string) : Z :=
  match s with
  | EmptyString => 0
  | String c rest =>
      if bool_decide (c = "-"%char) then - numeralValue rest
      else if bool_decide (c = "+"%char) then numeralValue rest
      else numeralValue s
  end.

(** ** The claims that do not hold as they are worded *)

(** C1 as worded: status 200 and no header-only error alone decide that the
    outcome is the resolution of step 9. *)
Definition resolution_as_stated : Prop :=
  forall (RT : Runtime) (c : Client) (ctx : Context) (req : Message) (cfg : callCfg)
         (hdr : gmap string (list string)) (res0 : Message)
         (request : Request) (response : Response),
    In (EvDo request) (callTrace c ctx req cfg hdr res0) ->
    doer c request = Ok response ->
    StatusCode response = 200 ->
    extractError (respHeader response) = None ->
    callError c ctx req cfg hdr res0 = resolution cfg response.

(** C2 as worded: the status value is parsed as an unsigned integer, so
    that whatever is not an unsigned numeral is an invalid error code. *)
Definition unsigned_status_as_stated : Prop :=
  forall (RT : Runtime) (h : gmap string (list string)),
    let codeHeader := Get h "Grpc-Status" in
    (codeHeader = "" \/ codeHeader = "0" -> extractError h = None)
    /\ (codeHeader <> "" -> codeHeader <> "0" -> isNumeral codeHeader = false ->
        extractError h
        = Some (errorf CodeUnknown "gRPC protocol error: got invalid error code %q"
                  [ArgString codeHeader])).

(** C9 as worded: a status value that parses to a non-zero [n] alone
    decides the code of the returned error. *)
Definition raw_status_as_stated : Prop :=
  forall (RT : Runtime) (h : gmap string (list string)) (n : Z),
    strconv.Atoi (Get h "Grpc-Status") = (n, None) ->
    n <> 0 ->
    exists e, extractError h = Some e /\ code e = toCode n.

(** ** The outcome of a call, case by case

    [callOutcome] spells out, for each path through [call], the store the
    call ends in and what it returns; [runCall_outcome] below proves that
    it is what the monadic [call] computes. *)

(** The wrapped errors of an error, outermost first: what [errors.Is]
    compares the target with. *)
Fixpoint errorChain (e : goerror) : list goerror :=
  e :: match e with
       | FmtErrorfW _ wrapped => errorChain wrapped
       | _ => []
       end.

Section Outcomes.
Context `{RT : Runtime}.

(** The request header set after the deadline handling of [call]. *)
Definition timeoutHeader (ctx : Context) (hdr : gmap string (list string))
    : gmap string (list string) :=
  match Deadline ctx with
  | Some deadline =>
      match encodeTimeout (time_Until deadline) with
      | Ok enc => Set_ hdr "Grpc-Timeout" enc
      | Err _ => hdr
      end
  | None => hdr
  end.

Definition transportError (e : goerror) : Error :=
  if errors_Is e ContextCanceled then errorf CodeCanceled "context canceled" []
  else if errors_Is e ContextDeadlineExceeded
  then errorf CodeDeadlineExceeded "context deadline exceeded" []
  else wrap CodeUnknown e.

(** Whether [call] reads the body of [response]. *)
Definition readsBody (response : Response) : bool :=
  (StatusCode response =? 200)
  && (bool_decide (responseCompression response = CompressionIdentity)
      || bool_decide (responseCompression response = CompressionGzip))
  && bool_decide (extractError (respHeader response) = None).

Definition responseOutcome (cfg : callCfg) (response : Response) (pre : list Event)
    (hdr : gmap string (list string)) (res0 : Message) : Store * (unit + Error) :=
  let early := mkStore (pre ++ [EvDrain; EvClose]) hdr (respHeader response) res0 in
  let late : list Event :=
    (pre ++ [EvUnmarshal (responseCompression response) (MaxResponseBytes cfg);
             EvDrain; EvDrain; EvClose])%list in
  if negb (StatusCode response =? 200) then
    (early, inr (errorf (default CodeUnknown (httpToGRPC !! StatusCode response))
                   "HTTP status %v" [ArgInt (StatusCode response)]))
  else if bool_decide (responseCompression response = CompressionIdentity)
          || bool_decide (responseCompression response = CompressionGzip) then
    match extractError (respHeader response) with
    | Some e => (early, inr e)
    | None =>
        match unmarshalLPM (respBody response) (responseCompression response)
                (MaxResponseBytes cfg) with
        | Ok m =>
            (mkStore late hdr (respHeader response) m,
             match extractError (Trailer response) with
             | Some e => inr e
             | None => inl tt
             end)
        | Err ue =>
            (mkStore late hdr (respHeader response) res0,
             match extractError (Trailer response) with
             | Some e => inr e
             | None =>
                 inr (errorfW CodeUnknown "server returned invalid protobuf: %w" ue)
             end)
        end
    end
  else
    (early, inr (errorf CodeInternal
                   "unknown compression %q: accepted grpc-encoding values are %v"
                   [ArgString (responseCompression response);
                    ArgString acceptEncodingValue])).

Definition callOutcome (c : Client) (ctx : Context) (req : Message) (cfg : callCfg)
    (hdr : gmap string (list string)) (res0 : Message) : Store * (unit + Error) :=
  match CallMeta ctx with
  | None =>
      (mkStore [] hdr ∅ res0,
       inr (errorf CodeInternal "no call metadata available on context" []))
  | Some md =>
      let expired :=
        match Deadline ctx with
        | Some deadline => time_Until deadline <=? 0
        | None => false
        end in
      if expired then
        (mkStore [] hdr ∅ res0,
         inr (errorf CodeDeadlineExceeded "no time to make RPC: timeout is %v"
                [ArgDuration (time_Until (default 0 (Deadline ctx)))]))
      else
        let hdr' := timeoutHeader ctx hdr in
        let marshalled : list Event := [EvMarshal (RequestCompression (Spec md))] in
        match marshalLPM req (RequestCompression (Spec md)) 0 with
        | Err e =>
            (mkStore marshalled hdr' ∅ res0,
             inr (errorfW CodeInvalidArgument "can't marshal request as protobuf: %w" e))
        | Ok body =>
            match url_Parse (url c) with
            | Err e =>
                (mkStore marshalled hdr' ∅ res0,
                 inr (errorfW CodeInternal "can't create HTTP request: %w" e))
            | Ok u =>
                let request := mkRequest "POST" u hdr' body in
                match doer c request with
                | Err e =>
                    (mkStore (marshalled ++ [EvDo request]) hdr' ∅ res0,
                     inr (transportError e))
                | Ok response =>
                    responseOutcome cfg response (marshalled ++ [EvDo request]) hdr' res0
                end
            end
        end
  end.

(** The paths of a call: it stops before the transport, the transport
    fails, or the transport returns a response. *)
Inductive callPath (c : Client) (ctx : Context) (req : Message) (cfg : callCfg)
    (hdr : gmap string (list string)) (res0 : Message) : Prop :=
| PathNoMetadata :
    CallMeta ctx = None ->
    runCall c ctx req cfg hdr res0
    = (mkStore [] hdr ∅ res0,
       inr (errorf CodeInternal "no call metadata available on context" [])) ->
    callPath c ctx req cfg hdr res0
| PathExpired md deadline :
    CallMeta ctx = Some md -> Deadline ctx = Some deadline ->
    time_Until deadline <= 0 ->
    runCall c ctx req cfg hdr res0
    = (mkStore [] hdr ∅ res0,
       inr (errorf CodeDeadlineExceeded "no time to make RPC: timeout is %v"
              [ArgDuration (time_Until deadline)])) ->
    callPath c ctx req cfg hdr res0
| PathMarshal md e :
    CallMeta ctx = Some md ->
    (forall deadline, Deadline ctx = Some deadline -> 0 < time_Until deadline) ->
    marshalLPM req (RequestCompression (Spec md)) 0 = Err e ->
    runCall c ctx req cfg hdr res0
    = (mkStore [EvMarshal (RequestCompression (Spec md))] (timeoutHeader ctx hdr) ∅ res0,
       inr (errorfW CodeInvalidArgument "can't marshal request as protobuf: %w" e)) ->
    callPath c ctx req cfg hdr res0
| PathURL md body e :
    CallMeta ctx = Some md ->
    (forall deadline, Deadline ctx = Some deadline -> 0 < time_Until deadline) ->
    marshalLPM req (RequestCompression (Spec md)) 0 = Ok body ->
    url_Parse (url c) = Err e ->
    runCall c ctx req cfg hdr res0
    = (mkStore [EvMarshal (RequestCompression (Spec md))] (timeoutHeader ctx hdr) ∅ res0,
       inr (errorfW CodeInternal "can't create HTTP request: %w" e)) ->
    callPath c ctx req cfg hdr res0
| PathTransport md body u e :
    CallMeta ctx = Some md ->
    (forall deadline, Deadline ctx = Some deadline -> 0 < time_Until deadline) ->
    marshalLPM req (RequestCompression (Spec md)) 0 = Ok body ->
    url_Parse (url c) = Ok u ->
    doer c (mkRequest "POST" u (timeoutHeader ctx hdr) body) = Err e ->
    runCall c ctx req cfg hdr res0
    = (mkStore [EvMarshal (RequestCompression (Spec md));
                EvDo (mkRequest "POST" u (timeoutHeader ctx hdr) body)]
         (timeoutHeader ctx hdr) ∅ res0,
       inr (transportError e)) ->
    callPath c ctx req cfg hdr res0
| PathResponse md body u response :
    CallMeta ctx = Some md ->
    (forall deadline, Deadline ctx = Some deadline -> 0 < time_Until deadline) ->
    marshalLPM req (RequestCompression (Spec md)) 0 = Ok body ->
    url_Parse (url c) = Ok u ->
    doer c (mkRequest "POST" u (timeoutHeader ctx hdr) body) = Ok response ->
    runCall c ctx req cfg hdr res0
    = responseOutcome cfg response
        [EvMarshal (RequestCompression (Spec md));
         EvDo (mkRequest "POST" u (timeoutHeader ctx hdr) body)]
        (timeoutHeader ctx hdr) res0 ->
    callPath c ctx req cfg hdr res0.

End Outcomes.

(** ** [NewClient] and [Client.Call] (src/client.go, lines 59 to 103) *)

(** Modelled from the spec: the content type of the protocol is a constant
    declared outside the sources (section 4.5, step 3). *)
Definition TypeDefaultGRPC : string := "application/grpc+proto".

Section CallPipeline.
Context `{RT : Runtime}.

(** [UnaryCall]; the response message is [res] of the store. *)
Definition UnaryCall : Type := Context -> Message -> M unit.

(** [CallInterceptor], the interface with the one method [WrapCall]. *)
Definition CallInterceptor : Type := UnaryCall -> UnaryCall.

(** The [callCfg] that [Call] folds the options into: the two fields [call]
    reads, and the [Interceptor] field, which is [nil] in the zero value. *)
Record callCfgI : Type := mkCallCfgI {
  cfgCall : callCfg;
  Interceptor : option CallInterceptor
}.

(** [CallOption], the interface with the one method [applyToCall], which
    updates the configuration in place. *)
Definition CallOption : Type := callCfgI -> callCfgI.

(** [var cfg callCfg]: the zero value. *)
Definition zeroCfg : callCfgI := mkCallCfgI (mkCallCfg false 0) None.

(** [Client] with its [opts] field. *)
Record ClientO : Type := mkClientO {
  client : Client;
  opts : list CallOption
}.

Definition NewClient (d : Request -> result Response) (target meth : string)
    (options : list CallOption) : ClientO :=
  mkClientO (mkClient d target meth) options.

(** Modelled from the spec: [NewCallContext] is not among the sources;
    section 4.5, step 4: it attaches the specification and the two header
    sets as call metadata to a context derived from [ctx], which keeps the
    deadline of [ctx]. *)
Definition NewCallContext (ctx : Context) (spec : Specification)
    (reqHeader resHeader : gmap string (list string)) : M Context :=
  fun s =>
    (mkStore (trace s) reqHeader resHeader (res s),
     inl (mkContext (Some (mkCallMetadata spec)) (ctxDeadline ctx))).

(** The two loops of [Call] over the client's and the call's options. *)
Definition foldOptions (c : ClientO) (callOpts : list CallOption) : callCfgI :=
  foldl (fun cfg opt => opt cfg) (foldl (fun cfg opt => opt cfg) zeroCfg (opts c)) callOpts.

Section WithUserAgent.
(** [UserAgent()], the identity string of the library, is declared outside
    the sources. *)
Variable UserAgent : string.

Definition Call (c : ClientO) (ctx : Context) (req : Message)
    (callOpts : list CallOption) : M unit :=
  let cfg := foldOptions c callOpts in
  let next : UnaryCall := fun ctx req => call (client c) ctx req (cfgCall cfg) in
  let next :=
    match Interceptor cfg with
    | Some interceptor => interceptor next
    | None => next
    end in
  let spec := mkSpecification (method (client c)) CompressionGzip in
  let spec :=
    if negb (EnableGzipRequest (cfgCall cfg))
    then mkSpecification (Method spec) CompressionIdentity
    else spec in
  let reqHeader : gmap string (list string) := ∅ in
  let reqHeader := Set_ reqHeader "User-Agent" UserAgent in
  let reqHeader := Set_ reqHeader "Content-Type" TypeDefaultGRPC in
  let reqHeader := Set_ reqHeader "Grpc-Encoding" (RequestCompression spec) in
  let reqHeader := Set_ reqHeader "Grpc-Accept-Encoding" acceptEncodingValue in
  let reqHeader := Set_ reqHeader "Te" "trailers" in
  bind (NewCallContext ctx spec reqHeader ∅) (fun ctx => next ctx req).

(** The request header set [Call] builds for a configuration. *)
Definition callHeader (gzip : bool) : gmap string (list string) :=
  list_to_map
    [ ("User-Agent", [UserAgent]);
      ("Content-Type", [TypeDefaultGRPC]);
      ("Grpc-Encoding", [if gzip then CompressionGzip else CompressionIdentity]);
      ("Grpc-Accept-Encoding", [acceptEncodingValue]);
      ("Te", ["trailers"]) ].

End WithUserAgent.

End CallPipeline.


(** ** The example server (src/unnamed/part_001)

    The stream types of the library are declared outside the sources.  A
    handler is modelled against what its stream does in one run: the
    messages it delivers, the error that ends it, and the outcome of each
    [Send]. *)

(** [io.EOF], an [errors.New] value. *)
Definition io_EOF : goerror := ErrorsNew "EOF".

(** Addition of two [int64] values. *)
Definition addInt64 (a b : Z) : Z := strconv.toInt64 (a + b).

(** A [connect.ClientStream] in one run: the numbers ([GetNumber]) of the
    messages that [Receive] delivers, in order, and what [Err] returns once
    [Receive] has returned false; [None] is [nil]. *)
Record ClientStream : Type := mkClientStream {
  csMessages : list Z;
  csErr : option goerror
}.

(** [Send] of a [connect.ServerStream] or [connect.BidiStream] in one run:
    the error it returns for a number, given the numbers sent on the stream
    before; [None] is [nil]. *)
Definition Sender : Type := list Z -> Z -> option goerror.

(** A [connect.BidiStream] in one run: the numbers of the messages that
    [Receive] delivers, the error it returns after the last of them
    ([io.EOF] when the client has closed the stream), and [Send]. *)
Record BidiStream : Type := mkBidiStream {
  bsMessages : list Z;
  bsErr : goerror;
  bsSend : Sender
}.

(** The loop of [Sum] over the messages still to be received. *)
Fixpoint Sum_loop (messages : list Z) (sum : Z) : Z :=
  match messages with
  | [] => sum
  | number :: rest => Sum_loop rest (addInt64 sum number)
  end.

(** [Sum]: the [Sum] field of the response, or the error. *)
Definition Sum (stream : ClientStream) : result Z :=
  let sum := Sum_loop (csMessages stream) 0 in
  match csErr stream with
  | Some err => Err err
  | None => Ok sum
  end.

(** The loop of [CountUp] from [number] on; [N] is the number of the
    request and [sent] the numbers sent so far.  The loop need not end, so
    it runs on [fuel]: [None] means that the fuel ran out. *)
Fixpoint CountUp_loop (send : Sender) (fuel : nat) (number N : Z) (sent : list Z)
    : option (list Z * option goerror) :=
  match fuel with
  | O => None
  | S fuel =>
      if number <=? N then
        match send sent number with
        | Some err => Some (sent, Some err)
        | None => CountUp_loop send fuel (addInt64 number 1) N (sent ++ [number])
        end
      else Some (sent, None)
  end.

(** [CountUp]: the numbers sent and the error returned. *)
Definition CountUp (send : Sender) (fuel : nat) (N : Z) : option (list Z * option goerror) :=
  CountUp_loop send fuel 1 N [].

(** The loop of [CumSum] over the messages still to be received. *)
Fixpoint CumSum_loop (send : Sender) (closing : goerror) (messages : list Z)
    (sum : Z) (sent : list Z) : list Z * option goerror :=
  match messages with
  | [] => if errors_Is closing io_EOF then (sent, None) else (sent, Some closing)
  | number :: rest =>
      let sum := addInt64 sum number in
      match send sent sum with
      | Some err => (sent, Some err)
      | None => CumSum_loop send closing rest sum (sent ++ [sum])
      end
  end.

(** [CumSum]: the sums sent and the error returned. *)
Definition CumSum (stream : BidiStream) : list Z * option goerror :=
  CumSum_loop (bsSend stream) (bsErr stream) (bsMessages stream) 0 [].

(** The exact sum of a list of integers. *)
Definition sumZ (l : list Z) : Z := foldr Z.add 0 l.

(** The bounds of [int64]. *)
Definition minInt64 : Z := - 2 ^ 63.
Definition maxInt64 : Z := 2 ^ 63 - 1.

(** The first [k] running sums of [numbers], each wrapped to [int64]. *)
Definition prefixSums (numbers : list Z) (k : nat) : list Z :=
  map (fun i => strconv.toInt64 (sumZ (take (S i) numbers))) (seq 0 k).

Example Itoa_samples :
  strconv.Itoa 0 = "0" /\ strconv.Itoa 16 = "16" /\ strconv.Itoa (-305) = "-305"
  /\ strconv.Itoa 4294967295 = "4294967295".
Proof. repeat split; reflexivity. Qed.

Example Atoi_samples :
  strconv.Atoi "10" = (10, None) /\ strconv.Atoi "-1" = (-1, None)
  /\ strconv.Atoi "+7" = (7, None) /\ strconv.Atoi "1x" = (0, Some strconv.ErrSyntax)
  /\ strconv.Atoi "" = (0, Some strconv.ErrSyntax)
  /\ strconv.Atoi "-" = (0, Some strconv.ErrSyntax)
  /\ strconv.Atoi "9223372036854775807" = (9223372036854775807, None)
  /\ strconv.Atoi "9223372036854775808" = (9223372036854775807, Some strconv.ErrRange)
  /\ strconv.Atoi "-9223372036854775808" = (-9223372036854775808, None).
Proof. repeat split; vm_compute; reflexivity. Qed.

Example ParseUint_samples :
  strconv.ParseUint "16" 32 = (16, None)
  /\ strconv.ParseUint "007" 32 = (7, None)
  /\ strconv.ParseUint "-1" 32 = (0, Some strconv.ErrSyntax)
  /\ strconv.ParseUint "4294967296" 32 = (4294967295, Some strconv.ErrRange).
Proof. repeat split; vm_compute; reflexivity. Qed.

Example UnmarshalText_samples :
  UnmarshalText "CANCELLED" = Ok 1 /\ UnmarshalText "16" = Ok 16
  /\ UnmarshalText "007" = Ok 7
  /\ UnmarshalText "17" = Err (FmtErrorf "invalid code %v" [ArgInt 17])
  /\ UnmarshalText "+5" = Err (FmtErrorf "invalid code %q" [ArgString "+5"])
  /\ UnmarshalText "CANCELED" = Err (FmtErrorf "invalid code %q" [ArgString "CANCELED"])
  /\ UnmarshalText "4294967296"
     = Err (FmtErrorf "invalid code %q" [ArgString "4294967296"])
  /\ MarshalText 16 = Ok "16" /\ Code_String 9 = "FailedPrecondition"
  /\ Code_String 17 = "Code(17)" /\ httpToCode !! 503 = Some 14.
Proof. repeat split; vm_compute; reflexivity. Qed.

(** The spec strings are those of the table of section 4.1. *)
Example specString_table :
  map specString (seqZ 0 17)
  = map Some
      [ "OK"; "CANCELLED"; "UNKNOWN"; "INVALID_ARGUMENT"; "DEADLINE_EXCEEDED";
        "NOT_FOUND"; "ALREADY_EXISTS"; "PERMISSION_DENIED"; "RESOURCE_EXHAUSTED";
        "FAILED_PRECONDITION"; "ABORTED"; "OUT_OF_RANGE"; "UNIMPLEMENTED";
        "INTERNAL"; "UNAVAILABLE"; "DATA_LOSS"; "UNAUTHENTICATED" ]
  /\ size stringToCode = 17%nat.
Proof. split; vm_compute; reflexivity. Qed.

(** ** Facts about the decimal conversions *)

Module strconv_facts.
Import strconv.

Lemma byteVal_range c : 0 <= byteVal c < 256.
Proof.
  unfold byteVal. pose proof (N_ascii_bounded c) as Hb. lia.
Qed.

Lemma byteVal_digitChr d :
  0 <= d < 10 -> byteVal (byteChr (byteVal "0" + d)) = byteVal "0" + d.
Proof.
  intros Hd. unfold byteVal, byteChr.
  rewrite N_ascii_embedding; change (N_of_ascii "0") with 48%N; lia.
Qed.

Lemma isDigit_digitChr d : 0 <= d < 10 -> isDigit (byteChr (byteVal "0" + d)) = true.
Proof.
  intros Hd. unfold isDigit. rewrite byteVal_digitChr by done.
  change (byteVal "0") with 48. change (byteVal "9") with 57.
  apply andb_true_iff; split; apply Z.leb_le; lia.
Qed.

Lemma isDigit_spec c : isDigit c = true <-> 48 <= byteVal c <= 57.
Proof.
  unfold isDigit. change (byteVal "0") with 48. change (byteVal "9") with 57.
  rewrite andb_true_iff, !Z.leb_le. done.
Qed.

Lemma app_cons c s t : String c s +:+ t = String c (s +:+ t).
Proof. reflexivity. Qed.

Lemma app_nil_l t : "" +:+ t = t.
Proof. reflexivity. Qed.

Lemma app_assoc s t u : (s +:+ t) +:+ u = s +:+ (t +:+ u).
Proof.
  induction s as [|c s IH]; [done|]. rewrite !app_cons, IH. done.
Qed.

Lemma app_snoc_ne s c t : s +:+ String c t <> "".
Proof. destruct s; discriminate. Qed.

Lemma allDigits_app s t : allDigits (s +:+ t) = allDigits s && allDigits t.
Proof.
  induction s as [|c s IH]; [done|].
  rewrite app_cons. simpl. rewrite IH. apply andb_assoc.
Qed.

Lemma digitsValue_app s t acc :
  digitsValue (s +:+ t) acc = digitsValue t (digitsValue s acc).
Proof.
  revert acc. induction s as [|c s IH]; intros acc; [done|].
  rewrite app_cons. simpl. apply IH.
Qed.

Lemma formatDigits_acc fuel u acc :
  formatDigits fuel u acc = formatDigits fuel u "" +:+ acc.
Proof.
  revert u acc. induction fuel as [|fuel IH]; intros u acc; simpl; [done|].
  destruct (u <? 10); [done|].
  rewrite IH. rewrite (IH _ (String _ "")).
  rewrite app_assoc. done.
Qed.

Lemma formatDigits_step fuel u :
  formatDigits (S fuel) u "" =
    if u <? 10 then String (byteChr (byteVal "0" + u mod 10)) ""
    else formatDigits fuel (u / 10) "" +:+ String (byteChr (byteVal "0" + u mod 10)) "".
Proof. simpl. destruct (u <? 10); [done|]. apply formatDigits_acc. Qed.

(** With enough fuel the digits printed for [u] are a numeral denoting [u]. *)
Lemma formatDigits_numeral fuel u :
  0 <= u < 10 ^ Z.of_nat (S fuel) ->
  isNumeral (formatDigits (S fuel) u "") = true
  /\ numeralValue (formatDigits (S fuel) u "") = u.
Proof.
  revert u. induction fuel as [|fuel IH]; intros u Hu;
    rewrite formatDigits_step;
    assert (Hm : 0 <= u mod 10 < 10) by (apply Z.mod_pos_bound; lia);
    destruct (Z.ltb_spec u 10) as [Hlt|Hge].
  1, 3: unfold isNumeral, numeralValue; simpl;
    rewrite isDigit_digitChr, byteVal_digitChr by done;
    rewrite Z.mod_small by lia; split; [done | lia].
  - change (10 ^ Z.of_nat 1) with 10 in Hu. lia.
  - assert (Hq : 0 <= u / 10 < 10 ^ Z.of_nat (S fuel)).
    { rewrite (Nat2Z.inj_succ (S fuel)), Z.pow_succ_r in Hu by lia.
      split; [apply Z.div_pos; lia | apply Z.div_lt_upper_bound; lia]. }
    destruct (IH _ Hq) as [Hnum Hval].
    unfold isNumeral, numeralValue in *.
    apply andb_true_iff in Hnum as [Hne Hall].
    rewrite allDigits_app, digitsValue_app, Hval, Hall.
    cbn [allDigits digitsValue andb].
    rewrite isDigit_digitChr, byteVal_digitChr by done.
    split.
    + apply andb_true_iff; split; [|done].
      apply negb_true_iff, bool_decide_eq_false, app_snoc_ne.
    + pose proof (Z.div_mod u 10). lia.
Qed.

Lemma FormatUint_numeral u :
  0 <= u -> isNumeral (FormatUint u) = true /\ numeralValue (FormatUint u) = u.
Proof.
  intros Hu. apply formatDigits_numeral. split; [done|].
  destruct (Z.eq_dec u 0) as [->|Hne]; [done|].
  rewrite Nat2Z.inj_succ, Z2Nat.id by apply Z.log2_nonneg.
  pose proof (Z.log2_spec u ltac:(lia)) as [_ Hlt].
  eapply Z.lt_le_trans; [exact Hlt|].
  apply Z.pow_le_mono_l. lia.
Qed.

(** *** What the parsing loops accept *)

Lemma digitsValue_ge s n : allDigits s = true -> 0 <= n -> n <= digitsValue s n.
Proof.
  revert n. induction s as [|c s IH]; intros n Hs Hn; simpl in *; [lia|].
  apply andb_true_iff in Hs as [Hc Hs]. apply isDigit_spec in Hc.
  change (byteVal "0") with 48.
  etransitivity; [|apply IH; [done | lia]]. lia.
Qed.

Lemma parseUintLoop_ok maxVal s n v :
  0 <= n <= maxVal -> maxVal < 2 ^ 64 ->
  parseUintLoop maxVal s n = (v, None) ->
  allDigits s = true /\ v = digitsValue s n /\ 0 <= v <= maxVal.
Proof.
  revert n. induction s as [|c s IH]; intros n Hn Hmax Hp; simpl in *.
  { injection Hp as <-. done. }
  destruct (isDigit c) eqn:Hc; [|discriminate].
  change (maxUint64 / 10 + 1) with 1844674407370955162 in Hp.
  destruct (Z.geb_spec n 1844674407370955162) as [|Hcut]; [discriminate|].
  destruct (_ || _) eqn:Hov in Hp; [discriminate|].
  apply orb_false_iff in Hov as [Hlo Hhi].
  apply Z.ltb_ge in Hlo. rewrite Z.gtb_ltb in Hhi. apply Z.ltb_ge in Hhi.
  apply isDigit_spec in Hc. change (byteVal "0") with 48 in *.
  change (2 ^ 64) with 18446744073709551616 in *.
  assert (Hn1 : (n * 10 + (byteVal c - 48)) mod 18446744073709551616
                = n * 10 + (byteVal c - 48)).
  { revert Hlo. Z.div_mod_to_equations. lia. }
  rewrite Hn1 in *.
  apply IH in Hp as (Hs & Hv & Hr); [done | lia | done].
Qed.

Lemma parseUintLoop_complete maxVal s n :
  allDigits s = true -> 0 <= n -> maxVal < 2 ^ 64 ->
  digitsValue s n <= maxVal ->
  parseUintLoop maxVal s n = (digitsValue s n, None).
Proof.
  revert n. induction s as [|c s IH]; intros n Hs Hn Hmax Hv; simpl in *; [done|].
  apply andb_true_iff in Hs as [Hc Hs]. rewrite Hc.
  apply isDigit_spec in Hc. change (byteVal "0") with 48 in *.
  pose proof (digitsValue_ge s (n * 10 + (byteVal c - 48)) Hs ltac:(lia)) as Hge.
  change (maxUint64 / 10 + 1) with 1844674407370955162.
  change (2 ^ 64) with 18446744073709551616 in *.
  destruct (Z.geb_spec n 1844674407370955162) as [Hcut|Hcut]; [lia|].
  rewrite Z.mod_small by lia.
  destruct (Z.ltb_spec (n * 10 + (byteVal c - 48)) (n * 10)) as [|_]; [lia|].
  rewrite Z.gtb_ltb.
  destruct (Z.ltb_spec maxVal (n * 10 + (byteVal c - 48))) as [|_]; [lia|].
  simpl. apply IH; [done | lia | done | done].
Qed.

Lemma atoiLoop_ok s n v :
  atoiLoop s n = (v, None) -> allDigits s = true /\ v = digitsValue s n.
Proof.
  revert n. induction s as [|c s IH]; intros n Hp; simpl in *.
  { injection Hp as <-. done. }
  pose proof (byteVal_range c) as Hb. change (byteVal "0") with 48 in *.
  destruct (Z.gtb_spec ((byteVal c - 48) mod 256) 9) as [|Hch]; [discriminate|].
  assert (Hd : 48 <= byteVal c <= 57 /\ (byteVal c - 48) mod 256 = byteVal c - 48).
  { revert Hch. Z.div_mod_to_equations. lia. }
  destruct Hd as [Hd Hm]. rewrite Hm in Hp.
  apply IH in Hp as [Hs Hv].
  split; [|done]. apply andb_true_iff; split; [apply isDigit_spec; lia | done].
Qed.

Lemma atoiLoop_complete s n :
  allDigits s = true -> atoiLoop s n = (digitsValue s n, None).
Proof.
  revert n. induction s as [|c s IH]; intros n Hs; simpl in *; [done|].
  apply andb_true_iff in Hs as [Hc Hs]. apply isDigit_spec in Hc.
  change (byteVal "0") with 48 in *.
  rewrite Z.mod_small by lia.
  destruct (Z.gtb_spec (byteVal c - 48) 9) as [|_]; [lia|].
  apply IH. done.
Qed.

Lemma parseUintLoop_range maxVal s n v :
  parseUintLoop maxVal s n = (v, Some ErrRange) -> v = maxVal.
Proof.
  revert n. induction s as [|c s IH]; intros n Hp; simpl in *; [discriminate|].
  destruct (isDigit c); [|discriminate].
  destruct (n >=? _); [by injection Hp|].
  destruct (_ || _) in Hp; [by injection Hp|]. eauto.
Qed.

Lemma ParseUint_ok s bits v :
  ParseUint s bits = (v, None) -> 0 <= bits <= 64 ->
  isNumeral s = true /\ v = numeralValue s
  /\ 0 <= v < 2 ^ (if bits =? 0 then 64 else bits).
Proof.
  unfold ParseUint, isNumeral, numeralValue, intSize. intros Hp Hbits.
  destruct (decide (s = "")) as [|Hne]; [discriminate|].
  set (b := if bits =? 0 then 64 else bits) in *.
  assert (0 < b <= 64) by (subst b; destruct (Z.eqb_spec bits 0); lia).
  assert (0 < 2 ^ b) by (apply Z.pow_pos_nonneg; lia).
  assert (2 ^ b <= 2 ^ 64) by (apply Z.pow_le_mono_r; lia).
  apply parseUintLoop_ok in Hp as (Hs & Hv & Hr); [|lia|lia].
  rewrite Hs, bool_decide_eq_false_2 by done. split; [done|]. split; [done|lia].
Qed.

Lemma ParseUint_complete s bits :
  isNumeral s = true -> 0 <= bits <= 64 ->
  numeralValue s < 2 ^ (if bits =? 0 then 64 else bits) ->
  ParseUint s bits = (numeralValue s, None).
Proof.
  unfold ParseUint, isNumeral, numeralValue, intSize. intros Hs Hbits Hv.
  apply andb_true_iff in Hs as [Hne Hs].
  apply negb_true_iff, bool_decide_eq_false in Hne.
  destruct (decide (s = "")) as [|_]; [done|].
  set (b := if bits =? 0 then 64 else bits) in *.
  assert (0 < b <= 64) by (subst b; destruct (Z.eqb_spec bits 0); lia).
  assert (2 ^ b <= 2 ^ 64) by (apply Z.pow_le_mono_r; lia).
  apply parseUintLoop_complete; [done | lia | lia | lia].
Qed.

Lemma toInt64_small z : - 2 ^ 63 <= z < 2 ^ 63 -> toInt64 z = z.
Proof.
  unfold toInt64. change (2 ^ 63) with 9223372036854775808.
  change (2 ^ 64) with 18446744073709551616.
  intros Hz. rewrite Z.mod_small by lia. lia.
Qed.

Lemma toInt64_min : toInt64 (2 ^ 63) = - 2 ^ 63.
Proof. reflexivity. Qed.

(** [Atoi] accepts exactly the signed numerals that fit an [int], and
    returns the number they denote. *)
Lemma Atoi_ok s v :
  Atoi s = (v, None) -> isSignedNumeral s = true /\ v = signedNumeralValue s.
Proof.
  unfold Atoi, isSignedNumeral, signedNumeralValue.
  destruct (_ && _) eqn:Hfast.
  - destruct s as [|c0 rest]; [discriminate|].
    destruct (bool_decide (c0 = "-"%char)) eqn:Hm;
      [|destruct (bool_decide (c0 = "+"%char)) eqn:Hp]; cbn [orb andb].
    + destruct (Z.ltb_spec (Z.of_nat (String.length rest)) 1) as [|Hlen];
        [discriminate|].
      destruct (atoiLoop rest 0) as [n [e|]] eqn:Hl; [discriminate|].
      intros [= <-]. apply atoiLoop_ok in Hl as [Hs ->].
      unfold isNumeral, numeralValue. rewrite Hs.
      destruct rest; [simpl in Hlen; lia | done].
    + destruct (Z.ltb_spec (Z.of_nat (String.length rest)) 1) as [|Hlen];
        [discriminate|].
      destruct (atoiLoop rest 0) as [n [e|]] eqn:Hl; [discriminate|].
      intros [= <-]. apply atoiLoop_ok in Hl as [Hs ->].
      unfold isNumeral, numeralValue. rewrite Hs.
      destruct rest; [simpl in Hlen; lia | done].
    + destruct (atoiLoop (String c0 rest) 0) as [n [e|]] eqn:Hl; [discriminate|].
      intros [= <-]. apply atoiLoop_ok in Hl as [Hs ->].
      unfold isNumeral, numeralValue. rewrite Hs. done.
  - unfold ParseInt. destruct s as [|c0 rest]; [discriminate|].
    set (s1 := if bool_decide (c0 = "+"%char) || bool_decide (c0 = "-"%char)
               then rest else String c0 rest).
    destruct (ParseUint s1 0) as [un err] eqn:Hu.
    change (if 0 =? 0 then intSize else 0) with 64.
    change (2 ^ (64 - 1)) with 9223372036854775808.
    destruct err as [[|]|]; [discriminate| |].
    + unfold ParseUint in Hu. destruct (decide (s1 = "")); [discriminate|].
      apply parseUintLoop_range in Hu. change (if 0 =? 0 then intSize else 0) with 64 in Hu.
      change (2 ^ 64 - 1) with 18446744073709551615 in Hu. subst un.
      destruct (bool_decide (c0 = "-"%char)); simpl; discriminate.
    + apply ParseUint_ok in Hu as (Hs & -> & Hr); [|lia].
      change (2 ^ (if 0 =? 0 then 64 else 0)) with 18446744073709551616 in Hr.
      subst s1.
      destruct (bool_decide (c0 = "-"%char)) eqn:Hm;
        [rewrite orb_true_r in *
        |destruct (bool_decide (c0 = "+"%char)) eqn:Hp]; cbn [orb andb negb] in *.
      * destruct (Z.gtb_spec (numeralValue rest) 9223372036854775808) as [|Hle];
          [discriminate|].
        intros [= <-]. split; [done|].
        destruct (Z.eq_dec (numeralValue rest) 9223372036854775808) as [->|Hne].
        { reflexivity. }
        rewrite (toInt64_small (numeralValue rest)) by (change (2 ^ 63) with 9223372036854775808; lia).
        apply toInt64_small. change (2 ^ 63) with 9223372036854775808. lia.
      * destruct (Z.geb_spec (numeralValue rest) 9223372036854775808) as [|Hlt];
          [discriminate|].
        intros [= <-]. split; [done|].
        apply toInt64_small. change (2 ^ 63) with 9223372036854775808. lia.
      * destruct (Z.geb_spec (numeralValue (String c0 rest)) 9223372036854775808)
          as [|Hlt]; [discriminate|].
        intros [= <-]. split; [done|].
        apply toInt64_small. change (2 ^ 63) with 9223372036854775808. lia.
Qed.

Lemma isNumeral_inv s :
  isNumeral s = true ->
  allDigits s = true /\ 1 <= Z.of_nat (String.length s) /\ 0 <= numeralValue s.
Proof.
  unfold isNumeral, numeralValue. intros Hs.
  apply andb_true_iff in Hs as [Hne Hs].
  split; [done|]. split; [|by apply digitsValue_ge].
  destruct s; [done | simpl; lia].
Qed.

Lemma digitsValue_lt s n :
  allDigits s = true -> 0 <= n ->
  digitsValue s n < (n + 1) * 10 ^ Z.of_nat (String.length s).
Proof.
  revert n. induction s as [|c s IH]; intros n Hs Hn.
  { simpl. lia. }
  cbn [allDigits] in Hs. apply andb_true_iff in Hs as [Hc Hs].
  apply isDigit_spec in Hc.
  cbn [digitsValue String.length]. change (byteVal "0") with 48.
  rewrite Nat2Z.inj_succ, Z.pow_succ_r by lia.
  specialize (IH (n * 10 + (byteVal c - 48)) Hs ltac:(lia)).
  assert (0 < 10 ^ Z.of_nat (String.length s)) by (apply Z.pow_pos_nonneg; lia).
  nia.
Qed.

Lemma numeralValue_short s :
  allDigits s = true -> Z.of_nat (String.length s) < 19 ->
  0 <= numeralValue s < 2 ^ 63.
Proof.
  intros Hs Hlen. unfold numeralValue.
  pose proof (digitsValue_ge s 0 Hs ltac:(lia)).
  pose proof (digitsValue_lt s 0 Hs ltac:(lia)) as Hlt.
  assert (10 ^ Z.of_nat (String.length s) <= 10 ^ 18)
    by (apply Z.pow_le_mono_r; lia).
  change (10 ^ 18) with 1000000000000000000 in *.
  change (2 ^ 63) with 9223372036854775808. lia.
Qed.

Lemma Atoi_range s v : Atoi s = (v, None) -> - 2 ^ 63 <= v < 2 ^ 63.
Proof.
  intros Hp. pose proof (Atoi_ok _ _ Hp) as [Hs ->].
  revert Hp. unfold Atoi, isSignedNumeral, signedNumeralValue in *.
  destruct s as [|c0 rest]; [discriminate|].
  destruct (_ && _) eqn:Hfast.
  - intros _. apply andb_true_iff in Hfast as [_ Hlen%Z.ltb_lt].
    cbn [String.length] in Hlen.
    destruct (bool_decide (c0 = "-"%char)) eqn:Hm;
      [|destruct (bool_decide (c0 = "+"%char)) eqn:Hp]; cbn [orb] in Hs;
      unfold isNumeral in Hs; apply andb_true_iff in Hs as [_ Hs].
    + pose proof (numeralValue_short rest Hs ltac:(lia)). lia.
    + pose proof (numeralValue_short rest Hs ltac:(lia)). lia.
    + pose proof (numeralValue_short (String c0 rest) Hs
                    ltac:(cbn [String.length]; lia)). lia.
  - unfold ParseInt.
    destruct (ParseUint _ 0) as [un [[|]|]] eqn:Hu; [discriminate| |].
    + unfold ParseUint in Hu. destruct (decide _); [discriminate|].
      apply parseUintLoop_range in Hu. subst un.
      destruct (bool_decide (c0 = "-"%char)); cbn; discriminate.
    + change (if 0 =? 0 then intSize else 0) with 64.
      change (2 ^ (64 - 1)) with 9223372036854775808.
      change (2 ^ 63) with 9223372036854775808.
      apply ParseUint_ok in Hu as (Hn & -> & Hr); [|lia].
      pose proof (isNumeral_inv _ Hn) as (_ & _ & Hpos).
      destruct (bool_decide (c0 = "-"%char)) eqn:Hm;
        [rewrite orb_true_r in *
        |destruct (bool_decide (c0 = "+"%char)) eqn:Hp]; cbn [orb andb negb] in *.
      * destruct (Z.gtb_spec (numeralValue rest) 9223372036854775808); [discriminate|].
        intros _. lia.
      * destruct (Z.geb_spec (numeralValue rest) 9223372036854775808); [discriminate|].
        intros _. lia.
      * destruct (Z.geb_spec (numeralValue (String c0 rest)) 9223372036854775808);
          [discriminate|].
        intros _. lia.
Qed.

Lemma Atoi_complete s :
  isSignedNumeral s = true ->
  - 2 ^ 63 <= signedNumeralValue s < 2 ^ 63 ->
  Atoi s = (signedNumeralValue s, None).
Proof.
  unfold Atoi, isSignedNumeral, signedNumeralValue.
  change (2 ^ 63) with 9223372036854775808.
  destruct s as [|c0 rest]; [discriminate|].
  destruct (_ && _) eqn:Hfast.
  - destruct (bool_decide (c0 = "-"%char)) eqn:Hm;
      [|destruct (bool_decide (c0 = "+"%char)) eqn:Hp]; cbn [orb andb];
      intros Hs _; apply isNumeral_inv in Hs as (Hs & Hlen & _).
    + destruct (Z.ltb_spec (Z.of_nat (String.length rest)) 1) as [|_]; [lia|].
      by rewrite atoiLoop_complete.
    + destruct (Z.ltb_spec (Z.of_nat (String.length rest)) 1) as [|_]; [lia|].
      by rewrite atoiLoop_complete.
    + by rewrite atoiLoop_complete.
  - unfold ParseInt.
    change (if 0 =? 0 then intSize else 0) with 64.
    change (2 ^ (64 - 1)) with 9223372036854775808.
    destruct (bool_decide (c0 = "-"%char)) eqn:Hm;
      [rewrite orb_true_r
      |destruct (bool_decide (c0 = "+"%char)) eqn:Hp]; cbn [orb andb negb];
      intros Hs Hr; pose proof (isNumeral_inv _ Hs) as (_ & _ & Hpos);
      (rewrite ParseUint_complete;
       [|done|lia|change (2 ^ (if 0 =? 0 then 64 else 0)) with 18446744073709551616; lia]).
    + destruct (Z.gtb_spec (numeralValue rest) 9223372036854775808) as [|Hle]; [lia|].
      f_equal.
      destruct (Z.eq_dec (numeralValue rest) 9223372036854775808) as [->|Hne].
      { reflexivity. }
      rewrite (toInt64_small (numeralValue rest))
        by (change (2 ^ 63) with 9223372036854775808; lia).
      apply toInt64_small. change (2 ^ 63) with 9223372036854775808. lia.
    + destruct (Z.geb_spec (numeralValue rest) 9223372036854775808) as [|Hlt]; [lia|].
      f_equal. apply toInt64_small. change (2 ^ 63) with 9223372036854775808. lia.
    + destruct (Z.geb_spec (numeralValue (String c0 rest)) 9223372036854775808)
        as [|Hlt]; [lia|].
      f_equal. apply toInt64_small. change (2 ^ 63) with 9223372036854775808. lia.
Qed.

Lemma Itoa_numeral n :
  isSignedNumeral (Itoa n) = true /\ signedNumeralValue (Itoa n) = n.
Proof.
  unfold Itoa. destruct (Z.ltb_spec n 0) as [Hneg|Hpos].
  - destruct (FormatUint_numeral (- n)) as [Hs Hval]; [lia|].
    unfold isSignedNumeral, signedNumeralValue. simpl. rewrite Hs, Hval.
    split; [done | lia].
  - destruct (FormatUint_numeral n Hpos) as [Hs Hval].
    unfold isSignedNumeral, signedNumeralValue.
    destruct (FormatUint n) as [|c0 rest] eqn:E; [done|].
    pose proof (isNumeral_inv _ Hs) as (Hd & _ & _).
    simpl in Hd. apply andb_true_iff in Hd as [Hc _]. apply isDigit_spec in Hc.
    rewrite !bool_decide_eq_false_2.
    + done.
    + intros ->. vm_compute in Hc. destruct Hc as [Hc _]. by apply Hc.
    + intros ->. vm_compute in Hc. destruct Hc as [Hc _]. by apply Hc.
Qed.

(** The decimal string of an [int] parses back to it. *)
Lemma Atoi_Itoa n : - 2 ^ 63 <= n < 2 ^ 63 -> Atoi (Itoa n) = (n, None).
Proof.
  intros Hn. destruct (Itoa_numeral n) as [Hs Hval]. rewrite <- Hval at 2.
  apply Atoi_complete; [done | by rewrite Hval].
Qed.

Lemma Itoa_negative_not_numeral n : n < 0 -> isNumeral (Itoa n) = false.
Proof.
  intros Hn. unfold Itoa. destruct (Z.ltb_spec n 0); [|lia]. reflexivity.
Qed.

End strconv_facts.

(** ** Status codes: text round trip, strictness, display names *)

Section code_facts.
Import strconv strconv_facts.

Lemma stringToCode_entry s c :
  stringToCode !! s = Some c -> (s, c) ∈ stringToCodeEntries.
Proof. apply elem_of_list_to_map_2. Qed.

Lemma stringToCode_not_numeral s c :
  stringToCode !! s = Some c -> isSignedNumeral s = false.
Proof.
  intros H%stringToCode_entry. unfold stringToCodeEntries in H.
  repeat (apply elem_of_cons in H as [[= -> ->]|H]; [reflexivity|]).
  by apply elem_of_nil in H.
Qed.

Lemma toCode_small n : 0 <= n < 2 ^ 32 -> toCode n = n.
Proof. intros Hn. unfold toCode. by apply Z.mod_small. Qed.

Lemma UnmarshalText_table s c : stringToCode !! s = Some c -> UnmarshalText s = Ok c.
Proof. intros H. unfold UnmarshalText. by rewrite H. Qed.

(** Outside the table, [UnmarshalText] accepts the numerals of 0 to 16
    and nothing else. *)
Lemma UnmarshalText_numeric s :
  stringToCode !! s = None ->
  UnmarshalText s =
    if isNumeral s && (numeralValue s <=? 16) then Ok (numeralValue s)
    else if isNumeral s && (numeralValue s <? 2 ^ 32)
    then Err (FmtErrorf "invalid code %v" [ArgInt (numeralValue s)])
    else Err (FmtErrorf "invalid code %q" [ArgString s]).
Proof.
  intros Hnone. unfold UnmarshalText. rewrite Hnone.
  destruct (ParseUint s 32) as [n [e|]] eqn:Hp.
  - destruct (isNumeral s) eqn:Hs; [|done].
    destruct (Z.ltb_spec (numeralValue s) (2 ^ 32)) as [Hlt|Hge].
    + rewrite ParseUint_complete in Hp by (done || lia). discriminate.
    + destruct (Z.leb_spec (numeralValue s) 16); [lia | done].
  - apply ParseUint_ok in Hp as (Hs & -> & Hr); [|lia].
    change (if 32 =? 0 then 64 else 32) with 32 in Hr.
    rewrite Hs, toCode_small by done. cbn [andb].
    unfold minCode, maxCode, CodeOK, CodeUnauthenticated.
    destruct (Z.ltb_spec (numeralValue s) 0) as [|_]; [lia|].
    rewrite Z.gtb_ltb.
    destruct (Z.ltb_spec 16 (numeralValue s)), (Z.leb_spec (numeralValue s) 16);
      try lia; cbn [orb]; [|done].
    destruct (Z.ltb_spec (numeralValue s) (2 ^ 32)); [done | lia].
Qed.

End code_facts.

(** C6: for every code [c] from 0 to 16, parsing the decimal text that
    [MarshalText] gives for [c] yields [c] again, parsing the spec string of
    [c] yields [c], and the British spelling CANCELLED parses to the
    canceled code, 1. *)
Theorem code_text_round_trip (c : Z) :
  0 <= c <= 16 ->
  (exists t, MarshalText c = Ok t /\ UnmarshalText t = Ok c)
  /\ (exists s, specString c = Some s /\ UnmarshalText s = Ok c)
  /\ UnmarshalText "CANCELLED" = Ok CodeCanceled /\ CodeCanceled = 1.
Proof.
  intros Hc.
  assert (Hcases : Exists (eq c) (seqZ 0 17)).
  { apply Exists_exists. exists c. split; [|done]. apply elem_of_seqZ. lia. }
  vm_compute in Hcases.
  repeat (apply Exists_cons in Hcases as [->|Hcases];
          [split; [|split; [|split]];
           [eexists; split; [vm_compute; reflexivity|]
           |eexists; split; [vm_compute; reflexivity|] | |];
           vm_compute; reflexivity|]).
  by apply Exists_nil in Hcases.
Qed.

Lemma code_text_round_trip_witness :
  0 <= 9 <= 16
  /\ (exists t, MarshalText 9 = Ok t /\ UnmarshalText t = Ok 9)
  /\ (exists s, specString 9 = Some s /\ UnmarshalText s = Ok 9).
Proof.
  split; [lia|].
  destruct (code_text_round_trip 9 ltac:(lia)) as (Hm & Hs & _). split; assumption.
Defined.

(** C7: serialization fails with an invalid-code error for every integer
    outside 0 to 16; parsing fails with an invalid-code error for the
    decimal string of every such integer, and for every string that is
    neither one of the 17 spec strings of the table nor a decimal numeral
    of a value from 0 to 16. *)
Theorem code_text_strict :
  (forall c : Z, c < 0 \/ 16 < c ->
     MarshalText c = Err (FmtErrorf "invalid code %v" [ArgCode c]))
  /\ (forall n : Z, n < 0 \/ 16 < n ->
       UnmarshalText (strconv.Itoa n) =
         if (0 <=? n) && (n <? 2 ^ 32)
         then Err (FmtErrorf "invalid code %v" [ArgInt n])
         else Err (FmtErrorf "invalid code %q" [ArgString (strconv.Itoa n)]))
  /\ (forall s : string,
       stringToCode !! s = None ->
       ~ (isNumeral s = true /\ numeralValue s <= 16) ->
       UnmarshalText s = Err (FmtErrorf "invalid code %v" [ArgInt (numeralValue s)])
       \/ UnmarshalText s = Err (FmtErrorf "invalid code %q" [ArgString s])).
Proof.
  split; [|split].
  - intros c Hc. unfold MarshalText, minCode, maxCode, CodeOK, CodeUnauthenticated.
    rewrite Z.gtb_ltb.
    destruct (Z.ltb_spec c 0), (Z.ltb_spec 16 c); done || lia.
  - intros n Hn.
    destruct (strconv_facts.Itoa_numeral n) as [Hsigned Hval].
    assert (Hnone : stringToCode !! strconv.Itoa n = None).
    { destruct (stringToCode !! strconv.Itoa n) eqn:E; [|done].
      apply stringToCode_not_numeral in E. congruence. }
    rewrite UnmarshalText_numeric by done.
    destruct Hn as [Hneg|Hbig].
    + rewrite strconv_facts.Itoa_negative_not_numeral by done.
      destruct (Z.leb_spec 0 n); [lia | done].
    + unfold strconv.Itoa. destruct (Z.ltb_spec n 0) as [|Hpos]; [lia|].
      destruct (strconv_facts.FormatUint_numeral n Hpos) as [-> ->].
      destruct (Z.leb_spec n 16); [lia|].
      destruct (Z.leb_spec 0 n); [done | lia].
  - intros s Hnone Hbad. rewrite UnmarshalText_numeric by done.
    destruct (isNumeral s) eqn:Hs; cbn [andb]; [|by right].
    destruct (Z.leb_spec (numeralValue s) 16); [tauto|].
    destruct (_ <? _); [by left | by right].
Qed.

Lemma code_text_strict_witness :
  MarshalText 17 = Err (FmtErrorf "invalid code %v" [ArgCode 17])
  /\ UnmarshalText (strconv.Itoa (-3)) = Err (FmtErrorf "invalid code %q" [ArgString "-3"])
  /\ UnmarshalText (strconv.Itoa 17) = Err (FmtErrorf "invalid code %v" [ArgInt 17])
  /\ (UnmarshalText "Canceled"
      = Err (FmtErrorf "invalid code %v" [ArgInt (numeralValue "Canceled")])
      \/ UnmarshalText "Canceled" = Err (FmtErrorf "invalid code %q" [ArgString "Canceled"])).
Proof.
  destruct code_text_strict as (Hm & Hn & Hs).
  split; [apply Hm; lia|].
  split; [apply (Hn (-3)); lia|].
  split; [apply (Hn 17); lia|].
  apply Hs; [vm_compute; reflexivity|].
  intros [Hnum _]. vm_compute in Hnum. discriminate.
Defined.

(** C8: the display name is a total function of the code: each of the 17
    codes of the table renders as its Pascal-case name, and every value
    above the table renders as Code(n) with n the decimal numeral of the
    value. *)
Theorem Code_String_total :
  map Code_String (seqZ 0 17)
  = [ "OK"; "Canceled"; "Unknown"; "InvalidArgument"; "DeadlineExceeded";
      "NotFound"; "AlreadyExists"; "PermissionDenied"; "ResourceExhausted";
      "FailedPrecondition"; "Aborted"; "OutOfRange"; "Unimplemented";
      "Internal"; "Unavailable"; "DataLoss"; "Unauthenticated" ]
  /\ forall c : Z, 16 < c ->
       exists n : string,
         Code_String c = "Code(" +:+ n +:+ ")"
         /\ isNumeral n = true /\ numeralValue n = c.
Proof.
  split; [vm_compute; reflexivity|].
  intros c Hc. exists (strconv.FormatUint c).
  destruct (strconv_facts.FormatUint_numeral c ltac:(lia)) as [Hs Hv].
  split; [|done].
  unfold Code_String, CodeOK, CodeCanceled, CodeUnknown, CodeInvalidArgument,
    CodeDeadlineExceeded, CodeNotFound, CodeAlreadyExists, CodePermissionDenied,
    CodeResourceExhausted, CodeFailedPrecondition, CodeAborted, CodeOutOfRange,
    CodeUnimplemented, CodeInternal, CodeUnavailable, CodeDataLoss,
    CodeUnauthenticated.
  repeat (match goal with
          | |- context [?a =? ?b] => destruct (Z.eqb_spec a b); [lia|]
          end).
  reflexivity.
Qed.

Lemma Code_String_total_witness :
  16 < 17 /\ exists n : string,
    Code_String 17 = "Code(" +:+ n +:+ ")" /\ isNumeral n = true /\ numeralValue n = 17.
Proof.
  split; [lia|]. destruct Code_String_total as [_ H]. apply H. lia.
Defined.

(** ** The pipeline on the scenarios of section 8 *)

Section scenarios.

Example scenario_A :
  demoRun (mkResponse 200 (demoHeader [("Grpc-Encoding", "gzip")]) (demoHeader [("Grpc-Status", "0")])
         (list_byte_of_string "pong"))
  = (None, [EvMarshal "identity"; EvDo demoSent; EvUnmarshal "gzip" 0; EvDrain; EvDrain; EvClose]).
Proof. vm_compute. reflexivity. Qed.

Example scenario_B :
  demoRun (mkResponse 200 (demoHeader [("Grpc-Status", "7"); ("Grpc-Message", "nope")]) ∅ [])
  = (Some (wrap CodePermissionDenied (ErrorsNew "nope")),
     [EvMarshal "identity"; EvDo demoSent; EvDrain; EvClose]).
Proof. vm_compute. reflexivity. Qed.

Example scenario_C :
  demoRun (mkResponse 503 ∅ ∅ [])
  = (Some (errorf CodeUnavailable "HTTP status %v" [ArgInt 503]),
     [EvMarshal "identity"; EvDo demoSent; EvDrain; EvClose]).
Proof. vm_compute. reflexivity. Qed.

Example scenario_D :
  fst (demoRun (mkResponse 200 ∅ ∅ []))
  = Some (errorfW CodeUnknown "server returned invalid protobuf: %w"
            (ErrorsNew "unexpected EOF")).
Proof. vm_compute. reflexivity. Qed.

Example scenario_E :
  fst (demoRun (mkResponse 200 ∅ (demoHeader [("Grpc-Status", "10")]) []))
  = Some (wrap CodeAborted (ErrorsNew "")).
Proof. vm_compute. reflexivity. Qed.

Example scenario_brotli :
  fst (demoRun (mkResponse 200 (demoHeader [("Grpc-Encoding", "brotli")]) ∅
              (list_byte_of_string "pong")))
  = Some (errorf CodeInternal
            "unknown compression %q: accepted grpc-encoding values are %v"
            [ArgString "brotli"; ArgString "identity,gzip"]).
Proof. vm_compute. reflexivity. Qed.

Example scenario_expired_deadline :
  (callError (RT := demoRuntime) (demoClient (mkResponse 200 ∅ ∅ []))
     (demoContext (Some 1000)) "ping" demoCfg ∅ "",
   callTrace (RT := demoRuntime) (demoClient (mkResponse 200 ∅ ∅ []))
     (demoContext (Some 1000)) "ping" demoCfg ∅ "")
  = (Some (errorf CodeDeadlineExceeded "no time to make RPC: timeout is %v" [ArgDuration 0]),
     []).
Proof. vm_compute. reflexivity. Qed.

Example scenario_timeout_header :
  callTrace (RT := demoRuntime) (demoClient (mkResponse 404 ∅ ∅ []))
    (demoContext (Some 1250)) "ping" demoCfg ∅ ""
  = [EvMarshal "identity";
     EvDo (mkRequest "POST" (url (demoClient (mkResponse 404 ∅ ∅ [])))
             (demoHeader [("Grpc-Timeout", "250n")]) (list_byte_of_string "ping"));
     EvDrain; EvClose].
Proof. vm_compute. reflexivity. Qed.

Example extractError_samples :
  extractError (RT := demoRuntime) (demoHeader [("Grpc-Status", "5"); ("Grpc-Message", "gone")])
  = Some (wrap CodeNotFound (ErrorsNew "gone"))
  /\ extractError (RT := demoRuntime) (demoHeader [("Grpc-Status", "five")])
     = Some (errorf CodeUnknown "gRPC protocol error: got invalid error code %q"
               [ArgString "five"])
  /\ extractError (RT := demoRuntime)
       (demoHeader [("Grpc-Status", "5"); ("Grpc-Status-Details-Bin", "7rest")])
     = Some (mkError CodePermissionDenied (ErrorsNew "from details")
               [mkAny "detail" (list_byte_of_string "rest")])
  /\ extractError (RT := demoRuntime) (demoHeader [("Grpc-Status", "-1")])
     = Some (wrap 4294967295 (ErrorsNew "")).
Proof. repeat split; vm_compute; reflexivity. Qed.

End scenarios.

(** ** Header and trailer error extraction *)

Section extractError_facts.
Context `{RT : Runtime}.
Implicit Types h : gmap string (list string).

Lemma Get_absent h key : h !! key = None -> Get h key = "".
Proof. intros H. unfold Get. by rewrite H. Qed.

Lemma Get_Set h key value : Get (Set_ h key value) key = value.
Proof. unfold Get, Set_. by rewrite lookup_insert_eq. Qed.

Lemma Get_insert_ne h key key' vs : key <> key' -> Get (<[key := vs]> h) key' = Get h key'.
Proof. intros H. unfold Get. by rewrite lookup_insert_ne. Qed.

Lemma extractError_success h :
  Get h "Grpc-Status" = "" \/ Get h "Grpc-Status" = "0" -> extractError h = None.
Proof. intros [H|H]; unfold extractError; by rewrite H. Qed.

Lemma extractError_invalid h e :
  Get h "Grpc-Status" <> "" -> Get h "Grpc-Status" <> "0" ->
  snd (strconv.Atoi (Get h "Grpc-Status")) = Some e ->
  extractError h
  = Some (errorf CodeUnknown "gRPC protocol error: got invalid error code %q"
            [ArgString (Get h "Grpc-Status")]).
Proof.
  intros H1 H2 Ha. unfold extractError.
  rewrite !bool_decide_eq_false_2 by done. cbn [orb].
  destruct (strconv.Atoi _) as [n [e'|]]; [done | discriminate].
Qed.

(** Once the status value has parsed to [n], the error is built from the
    plain headers and then overridden by the details payload, if any. *)
Lemma extractError_parsed h n :
  Get h "Grpc-Status" <> "" -> Get h "Grpc-Status" <> "0" ->
  strconv.Atoi (Get h "Grpc-Status") = (n, None) ->
  extractError h =
    if bool_decide (Get h "Grpc-Status-Details-Bin" = "") then
      Some (wrap (toCode n) (ErrorsNew (percentDecode (Get h "Grpc-Message"))))
    else
      match decodeBinaryHeader (Get h "Grpc-Status-Details-Bin") with
      | Err e =>
          Some (errorfW CodeUnknown
                  "server returned invalid grpc-error-details-bin trailer: %w" e)
      | Ok detailsBinary =>
          match proto_Unmarshal detailsBinary with
          | Err e =>
              Some (errorfW CodeUnknown
                      "server returned invalid protobuf for error details: %w" e)
          | Ok status =>
              Some (mkError (toCode (Status_Code status))
                      (ErrorsNew (Status_Message status)) (Status_Details status))
          end
      end.
Proof.
  intros H1 H2 Ha. unfold extractError.
  rewrite !bool_decide_eq_false_2 by done. cbn [orb]. rewrite Ha.
  destruct (Get h "Grpc-Status-Details-Bin") as [|c rest]; reflexivity.
Qed.

Lemma Atoi_nonzero_status s n :
  strconv.Atoi s = (n, None) -> n <> 0 -> s <> "" /\ s <> "0".
Proof. intros Ha Hn. split; intros ->; vm_compute in Ha; congruence. Qed.

(** No error that [extractError] returns is the error of the HTTP-status
    branch of [call]. *)
Lemma extractError_not_http_status h e c args :
  extractError h = Some e -> e <> errorf c "HTTP status %v" args.
Proof.
  unfold extractError. intros He ->.
  destruct (_ || _); [discriminate|].
  destruct (strconv.Atoi _) as [n [e'|]]; [discriminate|].
  destruct (0 <? _); [|discriminate].
  destruct (decodeBinaryHeader _); [|discriminate].
  destruct (proto_Unmarshal _); discriminate.
Qed.

End extractError_facts.

(** C10: when [Grpc-Status] is absent, empty or the string 0, [extractError]
    returns [nil] whatever [Grpc-Status-Details-Bin] holds and whatever the
    payload would decode to: the result does not change when the details
    header is replaced by any values, for every decoder of the runtime. *)
Theorem extractError_success_ignores_details (RT : Runtime)
    (h : gmap string (list string)) :
  h !! "Grpc-Status" = None \/ Get h "Grpc-Status" = "" \/ Get h "Grpc-Status" = "0" ->
  extractError h = None
  /\ forall vs : list string,
       extractError (<["Grpc-Status-Details-Bin" := vs]> h) = None.
Proof.
  intros H.
  assert (H' : Get h "Grpc-Status" = "" \/ Get h "Grpc-Status" = "0").
  { destruct H as [H|[H|H]]; [left; by apply Get_absent | by left | by right]. }
  split; [by apply extractError_success|].
  intros vs. apply extractError_success. by rewrite Get_insert_ne.
Qed.

Lemma extractError_success_ignores_details_witness :
  let h := demoHeader [("Grpc-Status", "0"); ("Grpc-Status-Details-Bin", "7rest")] in
  Get h "Grpc-Status" = "0"
  /\ extractError (RT := demoRuntime) h = None
  /\ extractError (RT := demoRuntime) (<["Grpc-Status-Details-Bin" := ["!"]]> h) = None.
Proof.
  intros h. split; [vm_compute; reflexivity|].
  destruct (extractError_success_ignores_details demoRuntime h) as [H1 H2].
  { right; right. vm_compute. reflexivity. }
  split; [exact H1 | apply H2].
Defined.

(** C3: when a non-success error is being built (the status value is
    neither empty nor 0 and has parsed) and a [Grpc-Status-Details-Bin]
    value is present: a value that fails to decode, or whose bytes fail to
    parse as a status payload, gives an error with code Unknown; otherwise
    the payload's code and message replace those of the plain headers and
    its details become the details of the returned error. *)
Theorem extractError_details_override (RT : Runtime)
    (h : gmap string (list string)) (n : Z) :
  Get h "Grpc-Status" <> "" -> Get h "Grpc-Status" <> "0" ->
  strconv.Atoi (Get h "Grpc-Status") = (n, None) ->
  Get h "Grpc-Status-Details-Bin" <> "" ->
  (forall e, decodeBinaryHeader (Get h "Grpc-Status-Details-Bin") = Err e ->
     extractError h
     = Some (errorfW CodeUnknown
               "server returned invalid grpc-error-details-bin trailer: %w" e))
  /\ (forall detailsBinary e,
        decodeBinaryHeader (Get h "Grpc-Status-Details-Bin") = Ok detailsBinary ->
        proto_Unmarshal detailsBinary = Err e ->
        extractError h
        = Some (errorfW CodeUnknown
                  "server returned invalid protobuf for error details: %w" e))
  /\ (forall detailsBinary status,
        decodeBinaryHeader (Get h "Grpc-Status-Details-Bin") = Ok detailsBinary ->
        proto_Unmarshal detailsBinary = Ok status ->
        exists e,
          extractError h = Some e
          /\ code e = toCode (Status_Code status)
          /\ err e = ErrorsNew (Status_Message status)
          /\ details e = Status_Details status).
Proof.
  intros H1 H2 Ha Hd.
  rewrite (extractError_parsed h n H1 H2 Ha), bool_decide_eq_false_2 by done.
  split; [|split].
  - intros e ->. reflexivity.
  - intros b e -> ->. reflexivity.
  - intros b st -> ->. eexists. split; [reflexivity|]. done.
Qed.

Lemma extractError_details_override_witness :
  let h := demoHeader [("Grpc-Status", "5"); ("Grpc-Message", "gone");
                       ("Grpc-Status-Details-Bin", "7rest")] in
  exists e,
    extractError (RT := demoRuntime) h = Some e
    /\ code e = CodePermissionDenied
    /\ err e = ErrorsNew "from details"
    /\ details e = [mkAny "detail" (list_byte_of_string "rest")].
Proof.
  intros h.
  destruct (extractError_details_override demoRuntime h 5) as (_ & _ & H).
  - vm_compute. discriminate.
  - vm_compute. discriminate.
  - vm_compute. reflexivity.
  - vm_compute. discriminate.
  - apply (H (list_byte_of_string "7rest")
             (mkStatus 7 "from details" [mkAny "detail" (list_byte_of_string "rest")]));
      vm_compute; reflexivity.
Defined.




(** C9, as worded, fails: with status 5 and a details payload that carries
    code 7, the returned error has code 7, not the conversion of 5. *)
Lemma raw_status_counterexample :
  strconv.Atoi "5" = (5, None)
  /\ extractError (RT := demoRuntime)
       (demoHeader [("Grpc-Status", "5"); ("Grpc-Status-Details-Bin", "7rest")])
     = Some (mkError 7 (ErrorsNew "from details")
               [mkAny "detail" (list_byte_of_string "rest")])
  /\ ~ raw_status_as_stated.
Proof.
  split; [vm_compute; reflexivity|]. split; [vm_compute; reflexivity|].
  intros H.
  destruct (H demoRuntime
              (demoHeader [("Grpc-Status", "5"); ("Grpc-Status-Details-Bin", "7rest")])
              5 ltac:(vm_compute; reflexivity) ltac:(lia)) as (e & He & Hc).
  vm_compute in He. injection He as <-. vm_compute in Hc. discriminate.
Qed.

(** C9, amended: [extractError] does not validate the range of a numeric
    status: for every header set whose [Grpc-Status] parses as a decimal
    integer [n] other than 0 (above 16 and negative ones included) and that
    carries no [Grpc-Status-Details-Bin] value, the returned error has the
    message of [Grpc-Message] and the code [n] converted to the unsigned
    32-bit [Code], which lies outside 0 to 16 whenever [n] modulo 2^32
    does. *)
Theorem extractError_raw_code (RT : Runtime) (h : gmap string (list string)) (n : Z) :
  strconv.Atoi (Get h "Grpc-Status") = (n, None) ->
  n <> 0 ->
  Get h "Grpc-Status-Details-Bin" = "" ->
  extractError h
  = Some (wrap (n mod 2 ^ 32) (ErrorsNew (percentDecode (Get h "Grpc-Message")))).
Proof.
  intros Ha Hn Hd.
  destruct (Atoi_nonzero_status _ _ Ha Hn) as [H1 H2].
  rewrite (extractError_parsed h n H1 H2 Ha), Hd.
  unfold toCode. reflexivity.
Qed.

Lemma extractError_raw_code_witness :
  extractError (RT := demoRuntime) (demoHeader [("Grpc-Status", "-1")])
  = Some (wrap 4294967295 (ErrorsNew ""))
  /\ extractError (RT := demoRuntime) (demoHeader [("Grpc-Status", "17")])
     = Some (wrap 17 (ErrorsNew "")).
Proof.
  split.
  - apply (extractError_raw_code demoRuntime (demoHeader [("Grpc-Status", "-1")]) (-1));
      [vm_compute; reflexivity | lia | vm_compute; reflexivity].
  - apply (extractError_raw_code demoRuntime (demoHeader [("Grpc-Status", "17")]) 17);
      [vm_compute; reflexivity | lia | vm_compute; reflexivity].
Defined.

(** The same for the decimal string of any non-zero [int]. *)
Lemma extractError_Itoa_code (RT : Runtime) (h : gmap string (list string)) (n : Z) :
  - 2 ^ 63 <= n < 2 ^ 63 -> n <> 0 ->
  Get h "Grpc-Status" = strconv.Itoa n ->
  Get h "Grpc-Status-Details-Bin" = "" ->
  exists e, extractError h = Some e /\ code e = n mod 2 ^ 32.
Proof.
  intros Hr Hn Hs Hd.
  assert (Ha : strconv.Atoi (Get h "Grpc-Status") = (n, None))
    by (rewrite Hs; by apply strconv_facts.Atoi_Itoa).
  destruct (Atoi_nonzero_status _ _ Ha Hn) as [H1 H2].
  rewrite (extractError_parsed h n H1 H2 Ha), Hd. by eexists.
Qed.

(** ** The HTTP exchange *)

Section call_facts.
Context `{RT : Runtime}.

Lemma httpToCode_table st :
  default CodeUnknown (httpToCode !! st) = httpStatusTable st.
Proof.
  unfold httpStatusTable, httpToCode.
  cbn [list_to_map foldr fst snd].
  repeat (rewrite lookup_insert; case_decide;
          [subst st; reflexivity|]).
  rewrite lookup_empty.
  repeat (match goal with
          | |- context [st =? ?k] => destruct (Z.eqb_spec st k); [congruence|]
          end).
  reflexivity.
Qed.

Lemma httpToGRPC_table st :
  match httpToGRPC !! st with Some c => c | None => CodeUnknown end = httpStatusTable st.
Proof. apply httpToCode_table. Qed.

Lemma call_response_no_Do cfg response s r :
  In (EvDo r) (trace (fst (call_response cfg response s))) -> In (EvDo r) (trace s).
Proof.
  unfold call_response, bind, throw, ret, emit, setResponseMeta, setRes.
  repeat (case_match; simplify_eq/=); rewrite ?in_app_iff; simpl; intuition discriminate.
Qed.

Lemma call_transport c ctx req cfg hdr res0 request response :
  In (EvDo request) (callTrace c ctx req cfg hdr res0) ->
  doer c request = Ok response ->
  exists s1, snd (runCall c ctx req cfg hdr res0) = snd (call_response cfg response s1).
Proof.
  unfold callTrace, runCall, call. intros Hin Hdo.
  destruct (CallMeta ctx) as [md|]; [|done].
  unfold bind, throw, ret, emit, getRequestHeader, setRequestHeader, deferred in *.
  destruct (Deadline ctx) as [deadline|];
    [destruct (time_Until deadline <=? 0); [done|];
     destruct (encodeTimeout (time_Until deadline))|];
    cbn [trace mdRequest mdResponse res app] in *.
  all: destruct (marshalLPM req _ 0) as [body|]; [|simpl in Hin; intuition discriminate].
  all: destruct (NewRequestWithContext ctx "POST" (url c) body) as [request0|];
    [|simpl in Hin; intuition discriminate].
  all: cbn [trace mdRequest mdResponse res app] in *.
  all: match type of Hin with
       | context [doer ?cl ?r] => destruct (doer cl r) as [response1|e1] eqn:Hd
       end.
  all: try (destruct (errors_Is e1 ContextCanceled);
            [|destruct (errors_Is e1 ContextDeadlineExceeded)];
            simpl in Hin;
            (destruct Hin as [Hin|[Hin|[]]]; [discriminate|]);
            injection Hin as <-; rewrite Hd in Hdo; discriminate).
  all: match goal with
       | |- context [call_response ?cf ?rs ?s] =>
           set (s1 := s) in *;
           destruct (call_response cf rs s1) as [s' r] eqn:Hcr
       end.
  all: cbn [fst snd trace] in Hin; rewrite !in_app_iff in Hin;
    (destruct Hin as [[Hin|Hin]|Hin];
     [|simpl in Hin; intuition discriminate ..]).
  all: assert (Hpre : In (EvDo request) (trace (fst (call_response cfg response1 s1))))
    by (rewrite Hcr; exact Hin).
  all: apply call_response_no_Do in Hpre; subst s1; cbn [trace] in Hpre;
    (destruct Hpre as [Hpre|[Hpre|[]]]; [discriminate|]);
    injection Hpre as <-; rewrite Hd in Hdo; injection Hdo as ->.
  all: eexists; rewrite Hcr; reflexivity.
Qed.

Lemma call_response_status cfg response s :
  StatusCode response <> 200 ->
  snd (call_response cfg response s)
  = inr (errorf (httpStatusTable (StatusCode response)) "HTTP status %v"
           [ArgInt (StatusCode response)]).
Proof.
  intros Hst. unfold call_response, bind, setResponseMeta, throw.
  destruct (Z.eqb_spec (StatusCode response) 200); [done|].
  cbn [negb snd]. by rewrite httpToGRPC_table.
Qed.

Lemma call_response_resolution cfg response s :
  StatusCode response = 200 ->
  responseCompression response = CompressionIdentity
  \/ responseCompression response = CompressionGzip ->
  extractError (respHeader response) = None ->
  snd (call_response cfg response s)
  = match resolution cfg response with
    | Some e => inr e
    | None => inl tt
    end.
Proof.
  intros Hst Hc Hh. unfold call_response, resolution, bind, setResponseMeta, throw, ret, emit, setRes.
  rewrite Hst, Hh. cbn [Z.eqb Pos.eqb negb].
  assert (Hok : bool_decide (responseCompression response = CompressionIdentity)
                || bool_decide (responseCompression response = CompressionGzip) = true).
  { destruct Hc as [->| ->]; reflexivity. }
  rewrite Hok.
  destruct (unmarshalLPM _ _ _); destruct (extractError (Trailer response)); reflexivity.
Qed.

Lemma call_response_200 cfg response s e c args :
  StatusCode response = 200 ->
  snd (call_response cfg response s) = inr e ->
  e <> errorf c "HTTP status %v" args.
Proof.
  intros Hst. unfold call_response, bind, setResponseMeta, throw, ret, emit, setRes.
  rewrite Hst. cbn [Z.eqb Pos.eqb negb].
  destruct (_ || _); [|intros [= <-]; discriminate].
  destruct (extractError (respHeader response)) eqn:Hh.
  { intros [= <-]. by eapply extractError_not_http_status. }
  destruct (unmarshalLPM _ _ _); destruct (extractError (Trailer response)) eqn:Ht;
    cbn; intros [= <-]; try discriminate; by eapply extractError_not_http_status.
Qed.

End call_facts.

(** C4: for every response the transport hands to the call with a status
    other than 200, whatever its headers, the call fails with the code of
    the table 400 Internal, 401 Unauthenticated, 403 PermissionDenied, 404
    Unimplemented, 429, 502, 503 and 504 Unavailable, every other status
    Unknown, and with the status in the message; with status 200 the call
    returns no error of that HTTP-status form. *)
Theorem call_http_status (RT : Runtime) (c : Client) (ctx : Context) (req : Message)
    (cfg : callCfg) (hdr : gmap string (list string)) (res0 : Message)
    (request : Request) (response : Response) :
  In (EvDo request) (callTrace c ctx req cfg hdr res0) ->
  doer c request = Ok response ->
  (StatusCode response <> 200 ->
   callError c ctx req cfg hdr res0
   = Some (errorf (httpStatusTable (StatusCode response)) "HTTP status %v"
             [ArgInt (StatusCode response)]))
  /\ (StatusCode response = 200 ->
      forall e code args,
        callError c ctx req cfg hdr res0 = Some e ->
        e <> errorf code "HTTP status %v" args)
  /\ (forall status : Z,
        default CodeUnknown (httpToCode !! status) = httpStatusTable status).
Proof.
  intros Hin Hdo.
  destruct (call_transport _ _ _ _ _ _ _ _ Hin Hdo) as [s1 Hrun].
  unfold callError. rewrite Hrun. split; [|split; [|apply httpToCode_table]].
  - intros Hst. by rewrite call_response_status.
  - intros Hst e code args He.
    destruct (snd (call_response cfg response s1)) as [|e'] eqn:Hr; [discriminate|].
    injection He as <-. by eapply call_response_200.
Qed.

Lemma call_http_status_witness :
  let response := mkResponse 503 ∅ ∅ [] in
  callError (RT := demoRuntime) (demoClient response) (demoContext None) "ping" demoCfg ∅ ""
  = Some (errorf CodeUnavailable "HTTP status %v" [ArgInt 503]).
Proof.
  intros response.
  refine (proj1 (call_http_status demoRuntime (demoClient response) (demoContext None)
                   "ping" demoCfg ∅ ""
                   demoSent response _ _) _).
  - vm_compute. right. left. reflexivity.
  - reflexivity.
  - vm_compute. discriminate.
Defined.

(** C1, as worded, fails: with status 200, no header-only error, an
    unsupported response compression and the trailer [Grpc-Status: 10], the
    call does not return the trailer's Aborted error but the Internal error
    of the compression check. *)
Lemma resolution_counterexample :
  let response := mkResponse 200 (demoHeader [("Grpc-Encoding", "brotli")])
                    (demoHeader [("Grpc-Status", "10")]) [] in
  extractError (RT := demoRuntime) (respHeader response) = None
  /\ extractError (RT := demoRuntime) (Trailer response)
     = Some (wrap CodeAborted (ErrorsNew ""))
  /\ callError (RT := demoRuntime) (demoClient response) (demoContext None)
       "ping" demoCfg ∅ ""
     = Some (errorf CodeInternal
               "unknown compression %q: accepted grpc-encoding values are %v"
               [ArgString "brotli"; ArgString acceptEncodingValue])
  /\ ~ resolution_as_stated.
Proof.
  intros response.
  split; [vm_compute; reflexivity|]. split; [vm_compute; reflexivity|].
  split; [vm_compute; reflexivity|].
  intros H.
  specialize (H demoRuntime (demoClient response) (demoContext None) "ping" demoCfg ∅ ""
                demoSent response).
  specialize (H ltac:(vm_compute; right; left; reflexivity) eq_refl eq_refl
                ltac:(vm_compute; reflexivity)).
  vm_compute in H. discriminate.
Qed.

(** C1, amended: for every response the transport hands to the call with
    status 200, a response compression that is unset, identity or gzip, and
    no header-only error, the outcome is resolved as follows: a non-nil
    error extracted from the trailers is returned, also when unmarshalling
    the body failed; with no trailer error and a body that failed to
    unmarshal, an Unknown error wrapping the unmarshal failure is returned;
    otherwise the call returns success. *)
Theorem call_resolution (RT : Runtime) (c : Client) (ctx : Context) (req : Message)
    (cfg : callCfg) (hdr : gmap string (list string)) (res0 : Message)
    (request : Request) (response : Response) :
  In (EvDo request) (callTrace c ctx req cfg hdr res0) ->
  doer c request = Ok response ->
  StatusCode response = 200 ->
  responseCompression response = CompressionIdentity
  \/ responseCompression response = CompressionGzip ->
  extractError (respHeader response) = None ->
  callError c ctx req cfg hdr res0 =
    match extractError (Trailer response),
          unmarshalLPM (respBody response) (responseCompression response)
            (MaxResponseBytes cfg) with
    | Some serverErr, _ => Some serverErr
    | None, Err unmarshalErr =>
        Some (errorfW CodeUnknown "server returned invalid protobuf: %w" unmarshalErr)
    | None, Ok _ => None
    end.
Proof.
  intros Hin Hdo Hst Hc Hh.
  destruct (call_transport _ _ _ _ _ _ _ _ Hin Hdo) as [s1 Hrun].
  unfold callError. rewrite Hrun, call_response_resolution by done.
  unfold resolution.
  destruct (extractError (Trailer response)); [done|].
  destruct (unmarshalLPM _ _ _); done.
Qed.

Lemma call_resolution_witness :
  let response := mkResponse 200 (demoHeader [("Grpc-Encoding", "gzip")])
                    (demoHeader [("Grpc-Status", "10")]) [] in
  callError (RT := demoRuntime) (demoClient response) (demoContext None) "ping" demoCfg ∅ ""
  = Some (wrap CodeAborted (ErrorsNew "")).
Proof.
  intros response.
  rewrite (call_resolution demoRuntime (demoClient response) (demoContext None)
             "ping" demoCfg ∅ ""
             demoSent response).
  - vm_compute. reflexivity.
  - vm_compute. right. left. reflexivity.
  - reflexivity.
  - reflexivity.
  - right. vm_compute. reflexivity.
  - vm_compute. reflexivity.
Defined.

(** C5: for every call whose context carries a deadline with a remaining
    duration of zero or less at the start of the HTTP exchange, the call
    fails with DeadlineExceeded and the message that there is no time to
    make the RPC, the transport is never invoked and no request body is
    marshalled: the call has no effect at all.  The context is one that
    carries call metadata, the precondition of the exchange, which
    [Client.Call] establishes before it invokes [call]. *)
Theorem call_expired_deadline (RT : Runtime) (c : Client) (ctx : Context) (req : Message)
    (cfg : callCfg) (hdr : gmap string (list string)) (res0 : Message)
    (md : CallMetadata) (deadline : Z) :
  CallMeta ctx = Some md ->
  Deadline ctx = Some deadline ->
  time_Until deadline <= 0 ->
  callError c ctx req cfg hdr res0
  = Some (errorf CodeDeadlineExceeded "no time to make RPC: timeout is %v"
            [ArgDuration (time_Until deadline)])
  /\ callTrace c ctx req cfg hdr res0 = []
  /\ (forall request, ~ In (EvDo request) (callTrace c ctx req cfg hdr res0))
  /\ (forall compression, ~ In (EvMarshal compression) (callTrace c ctx req cfg hdr res0)).
Proof.
  intros Hmd Hd Hexp.
  assert (Hrun : runCall c ctx req cfg hdr res0
                 = (mkStore [] hdr ∅ res0,
                    inr (errorf CodeDeadlineExceeded "no time to make RPC: timeout is %v"
                           [ArgDuration (time_Until deadline)]))).
  { unfold runCall, call. rewrite Hmd. unfold bind, throw. rewrite Hd.
    destruct (Z.leb_spec (time_Until deadline) 0); [done | lia]. }
  unfold callError, callTrace. rewrite Hrun. cbn [fst snd trace].
  split; [reflexivity|]. split; [reflexivity|]. split.
  - intros request [].
  - intros compression [].
Qed.

Lemma call_expired_deadline_witness :
  let c := demoClient (mkResponse 200 ∅ ∅ []) in
  callError (RT := demoRuntime) c (demoContext (Some 900)) "ping" demoCfg ∅ ""
  = Some (errorf CodeDeadlineExceeded "no time to make RPC: timeout is %v"
            [ArgDuration (-100)])
  /\ callTrace (RT := demoRuntime) c (demoContext (Some 900)) "ping" demoCfg ∅ "" = [].
Proof.
  intros c.
  destruct (call_expired_deadline demoRuntime c (demoContext (Some 900)) "ping" demoCfg ∅ ""
              (mkCallMetadata (mkSpecification "ping.v1.Ping.Ping" "identity")) 900)
    as (He & Ht & _).
  - reflexivity.
  - reflexivity.
  - vm_compute. discriminate.
  - split; [exact He | exact Ht].
Defined.

(** * Further properties of the code *)

(** ** Status codes *)

Section code_properties.
Import strconv strconv_facts.

Lemma code_in_range_cases (c : Z) :
  0 <= c <= 16 -> Exists (eq c) [0; 1; 2; 3; 4; 5; 6; 7; 8; 9; 10; 11; 12; 13; 14; 15; 16].
Proof.
  intros Hc. apply Exists_exists. exists c. split; [|done].
  change (c ∈ seqZ 0 17). apply elem_of_seqZ. lia.
Qed.

Lemma isNumeral_signed s : isNumeral s = true -> isSignedNumeral s = true.
Proof.
  intros Hs. pose proof (isNumeral_inv _ Hs) as (Hd & _ & _).
  unfold isSignedNumeral. destruct s as [|c0 rest]; [done|].
  cbn [allDigits] in Hd. apply andb_true_iff in Hd as [Hc _]. apply isDigit_spec in Hc.
  rewrite !bool_decide_eq_false_2; [done| |];
    intros ->; vm_compute in Hc; destruct Hc as [Hc _]; by apply Hc.
Qed.

Lemma stringToCode_numeral s : isNumeral s = true -> stringToCode !! s = None.
Proof.
  intros Hs%isNumeral_signed. destruct (stringToCode !! s) eqn:E; [|done].
  apply stringToCode_not_numeral in E. congruence.
Qed.

(** The table and [specString] are inverse to each other. *)
Lemma stringToCode_specString s c :
  stringToCode !! s = Some c <-> specString c = Some s.
Proof.
  split.
  - intros H%stringToCode_entry. unfold stringToCodeEntries in H.
    repeat (apply elem_of_cons in H as [[= -> ->]|H]; [reflexivity|]).
    by apply elem_of_nil in H.
  - unfold specString, stringToCodeEntries. cbn [List.find snd fst].
    repeat (match goal with
            | |- context [?k =? c] =>
                destruct (Z.eqb_spec k c) as [<-|];
                [intros [= <-]; vm_compute; reflexivity|]
            end).
    discriminate.
Qed.

Lemma specString_range s c : specString c = Some s -> 0 <= c <= 16.
Proof.
  intros H%stringToCode_specString%stringToCode_entry. unfold stringToCodeEntries in H.
  repeat (apply elem_of_cons in H as [[= -> ->]|H]; [vm_compute; split; discriminate|]).
  by apply elem_of_nil in H.
Qed.

Lemma Code_String_big c :
  16 < c -> Code_String c = "Code(" +:+ FormatUint c +:+ ")".
Proof.
  intros Hc.
  unfold Code_String, CodeOK, CodeCanceled, CodeUnknown, CodeInvalidArgument,
    CodeDeadlineExceeded, CodeNotFound, CodeAlreadyExists, CodePermissionDenied,
    CodeResourceExhausted, CodeFailedPrecondition, CodeAborted, CodeOutOfRange,
    CodeUnimplemented, CodeInternal, CodeUnavailable, CodeDataLoss,
    CodeUnauthenticated.
  repeat (match goal with
          | |- context [?a =? ?b] => destruct (Z.eqb_spec a b); [lia|]
          end).
  reflexivity.
Qed.

Lemma Itoa_inj n m : Itoa n = Itoa m -> n = m.
Proof.
  intros H. destruct (Itoa_numeral n) as [_ <-], (Itoa_numeral m) as [_ <-].
  by rewrite H.
Qed.

(** A run of digits followed by a closing parenthesis determines the digits. *)
Lemma digits_paren_inj s t :
  allDigits s = true -> allDigits t = true -> s +:+ ")" = t +:+ ")" -> s = t.
Proof.
  revert t. induction s as [|a s IH]; intros [|b t] Hs Ht H; try done.
  - rewrite app_nil_l, app_cons in H. injection H as <- _. done.
  - rewrite app_nil_l, app_cons in H. injection H as -> _. done.
  - rewrite !app_cons in H. injection H as -> H.
    cbn [allDigits] in Hs, Ht.
    apply andb_true_iff in Hs as [_ Hs]. apply andb_true_iff in Ht as [_ Ht].
    f_equal. by apply IH.
Qed.

End code_properties.

(** X1: [UnmarshalText] accepts exactly the spec strings of the table and the
    decimal numerals (a non-empty run of digits, leading zeros allowed) of
    the values 0 to 16, and returns the code they stand for. *)
Theorem UnmarshalText_accepts (s : string) (c : Z) :
  UnmarshalText s = Ok c
  <-> specString c = Some s
      \/ (isNumeral s = true /\ numeralValue s = c /\ c <= 16).
Proof.
  split.
  - intros H. destruct (stringToCode !! s) as [c'|] eqn:E.
    + left. apply stringToCode_specString.
      rewrite (UnmarshalText_table _ _ E) in H. by injection H as <-.
    + right. rewrite UnmarshalText_numeric in H by done.
      destruct (isNumeral s); [|discriminate]. cbn [andb] in H.
      destruct (Z.leb_spec (numeralValue s) 16).
      * by injection H as <-.
      * destruct (_ <? _); discriminate.
  - intros [H|(Hs & <- & Hle)].
    + by apply UnmarshalText_table, stringToCode_specString.
    + rewrite UnmarshalText_numeric by by apply stringToCode_numeral.
      rewrite Hs. cbn [andb]. destruct (Z.leb_spec (numeralValue s) 16); [done | lia].
Qed.

(** X2: every code that [UnmarshalText] returns lies in 0 to 16, is accepted
    by [MarshalText], and parses back to itself from the text [MarshalText]
    gives: parsing followed by serialising normalises the text. *)
Theorem UnmarshalText_normalises (s : string) (c : Z) :
  UnmarshalText s = Ok c ->
  0 <= c <= 16
  /\ MarshalText c = Ok (strconv.Itoa c)
  /\ UnmarshalText (strconv.Itoa c) = Ok c.
Proof.
  intros H.
  assert (Hr : 0 <= c <= 16).
  { destruct (stringToCode !! s) as [c'|] eqn:E.
    - rewrite (UnmarshalText_table _ _ E) in H. injection H as <-.
      by eapply specString_range, stringToCode_specString.
    - rewrite UnmarshalText_numeric in H by done.
      destruct (isNumeral s) eqn:Hs; [|discriminate]. cbn [andb] in H.
      pose proof (strconv_facts.isNumeral_inv _ Hs) as (_ & _ & Hpos).
      destruct (Z.leb_spec (numeralValue s) 16).
      + injection H as <-. lia.
      + destruct (_ <? _); discriminate. }
  split; [done|].
  pose proof (code_in_range_cases c Hr) as Hcases.
  repeat (apply Exists_cons in Hcases as [->|Hcases];
          [split; vm_compute; reflexivity|]).
  by apply Exists_nil in Hcases.
Qed.

Lemma UnmarshalText_normalises_witness :
  UnmarshalText "007" = Ok 7
  /\ MarshalText 7 = Ok "7" /\ UnmarshalText "7" = Ok 7.
Proof.
  split; [vm_compute; reflexivity|].
  destruct (UnmarshalText_normalises "007" 7) as (_ & Hm & Hu);
    [vm_compute; reflexivity|].
  split; [exact Hm | exact Hu].
Defined.

(** X3: the text [MarshalText] gives for a code is the decimal numeral of
    that code, it is never one of the spec strings of the table, and no
    other code has the same text. *)
Theorem MarshalText_canonical (c : Z) (t : string) :
  MarshalText c = Ok t ->
  isNumeral t = true /\ numeralValue t = c
  /\ stringToCode !! t = None
  /\ forall c' : Z, MarshalText c' = Ok t -> c' = c.
Proof.
  unfold MarshalText, minCode, maxCode, CodeOK, CodeUnauthenticated.
  rewrite Z.gtb_ltb.
  destruct (Z.ltb_spec c 0), (Z.ltb_spec 16 c); cbn [orb]; try discriminate.
  intros [= <-].
  assert (Hnum : isNumeral (strconv.Itoa c) = true /\ numeralValue (strconv.Itoa c) = c).
  { unfold strconv.Itoa. destruct (Z.ltb_spec c 0); [lia|].
    by apply strconv_facts.FormatUint_numeral. }
  destruct Hnum as [Hs Hv]. repeat split; [done | done | by apply stringToCode_numeral |].
  intros c'. rewrite Z.gtb_ltb.
  destruct (Z.ltb_spec c' 0), (Z.ltb_spec 16 c'); cbn [orb]; try discriminate.
  intros [= Heq]. by apply Itoa_inj.
Qed.

Lemma MarshalText_canonical_witness :
  isNumeral "12" = true /\ numeralValue "12" = 12
  /\ stringToCode !! "12" = None
  /\ forall c' : Z, MarshalText c' = Ok "12" -> c' = 12.
Proof. apply (MarshalText_canonical 12 "12"). vm_compute. reflexivity. Defined.

(** X4: distinct codes have distinct display names, in the table, outside
    it (the Code(n) form) and across the two. *)
Theorem Code_String_injective (c1 c2 : Z) :
  0 <= c1 -> 0 <= c2 -> c1 <> c2 -> Code_String c1 <> Code_String c2.
Proof.
  assert (Hmixed : forall a b, 0 <= a <= 16 -> 16 < b -> Code_String a <> Code_String b).
  { intros a b Ha Hb. rewrite (Code_String_big b Hb).
    pose proof (code_in_range_cases a Ha) as Hcases.
    repeat (apply Exists_cons in Hcases as [->|Hcases]; [vm_compute; discriminate|]).
    by apply Exists_nil in Hcases. }
  intros H1 H2 Hne H. apply Hne.
  destruct (Z.le_gt_cases c1 16) as [Hs1|Hb1], (Z.le_gt_cases c2 16) as [Hs2|Hb2].
  - pose proof (code_in_range_cases c1 ltac:(lia)) as Hc1.
    pose proof (code_in_range_cases c2 ltac:(lia)) as Hc2.
    repeat (apply Exists_cons in Hc1 as [->|Hc1];
            [repeat (apply Exists_cons in Hc2 as [->|Hc2];
                     [vm_compute in H; first [reflexivity | discriminate]|]);
             by apply Exists_nil in Hc2|]).
    by apply Exists_nil in Hc1.
  - exfalso. apply (Hmixed c1 c2); [lia | lia | done].
  - exfalso. apply (Hmixed c2 c1); [lia | lia | done].
  - rewrite (Code_String_big c1), (Code_String_big c2) in H by lia.
    apply (inj (String.app "Code(")) in H.
    destruct (strconv_facts.FormatUint_numeral c1 H1) as [Hn1 Hv1].
    destruct (strconv_facts.FormatUint_numeral c2 H2) as [Hn2 Hv2].
    apply strconv_facts.isNumeral_inv in Hn1 as (Hd1 & _ & _).
    apply strconv_facts.isNumeral_inv in Hn2 as (Hd2 & _ & _).
    apply (digits_paren_inj _ _ Hd1 Hd2) in H. by rewrite <- Hv1, <- Hv2, H.
Qed.

Lemma Code_String_injective_witness : Code_String 2 <> Code_String 17.
Proof. apply (Code_String_injective 2 17); lia. Defined.

(** X5: a display name is not a text [UnmarshalText] reads: of the names
    [Code.String] gives, only OK (code 0) parses; every other one, the
    Code(n) form included, is rejected as an invalid code. *)
Theorem UnmarshalText_display_name (c : Z) :
  0 <= c ->
  UnmarshalText (Code_String c) =
    if c =? 0 then Ok CodeOK
    else Err (FmtErrorf "invalid code %q" [ArgString (Code_String c)]).
Proof.
  intros Hc. destruct (Z.le_gt_cases c 16) as [Hs|Hb].
  - pose proof (code_in_range_cases c ltac:(lia)) as Hcases.
    repeat (apply Exists_cons in Hcases as [->|Hcases]; [vm_compute; reflexivity|]).
    by apply Exists_nil in Hcases.
  - destruct (Z.eqb_spec c 0); [lia|].
    rewrite (Code_String_big c Hb).
    assert (Hnone : stringToCode !! ("Code(" +:+ strconv.FormatUint c +:+ ")") = None).
    { destruct (stringToCode !! _) as [c'|] eqn:E; [|done].
      apply stringToCode_entry in E. unfold stringToCodeEntries in E.
      change ("Code(" +:+ strconv.FormatUint c +:+ ")")
        with (String "C" (String "o" ("de(" +:+ strconv.FormatUint c +:+ ")"))) in E.
      repeat (apply elem_of_cons in E as [E|E]; [discriminate E|]).
      by apply elem_of_nil in E. }
    rewrite UnmarshalText_numeric by done. reflexivity.
Qed.

Lemma UnmarshalText_display_name_witness :
  UnmarshalText (Code_String 1)
  = Err (FmtErrorf "invalid code %q" [ArgString "Canceled"]).
Proof. apply (UnmarshalText_display_name 1). lia. Defined.

(** ** The call, path by path *)

Section outcome_facts.
Context `{RT : Runtime}.

Lemma errors_Is_chain e target : errors_Is e target = true <-> In target (errorChain e).
Proof.
  induction e as [text|format args|format wrapped IH| |]; cbn [errors_Is errorChain];
    case_decide as Heq; try (split; [by left | done]);
    try (split; [done | intros [?|[]]; congruence]).
  rewrite IH. split; [by right | intros [?|?]; [congruence | done]].
Qed.

(** [call] computes the outcome that [callOutcome] spells out. *)
Lemma runCall_outcome c ctx req cfg hdr res0 :
  runCall c ctx req cfg hdr res0 = callOutcome c ctx req cfg hdr res0.
Proof.
  unfold runCall, callOutcome, call, timeoutHeader, transportError,
    NewRequestWithContext.
  destruct (CallMeta ctx) as [md|]; [|reflexivity].
  unfold bind, throw, ret, emit, getRequestHeader, setRequestHeader, deferred.
  destruct (Deadline ctx) as [deadline|];
    [cbn [default]; destruct (time_Until deadline <=? 0); [reflexivity|];
     destruct (encodeTimeout (time_Until deadline))|];
    cbn [trace mdRequest mdResponse res app];
    (destruct (marshalLPM req _ 0); [|reflexivity]);
    (destruct (url_Parse (url c)); [|reflexivity]);
    cbn [reqMethod reqURL reqBody trace mdRequest mdResponse res app];
    (destruct (doer c _) as [response|terr];
     [|destruct (errors_Is terr ContextCanceled);
       [|destruct (errors_Is terr ContextDeadlineExceeded)]; reflexivity]).
  all: unfold call_response, responseOutcome, bind, throw, ret, emit,
         setResponseMeta, setRes;
       cbn [trace mdRequest mdResponse res app];
       destruct (negb (StatusCode response =? 200)); [reflexivity|];
       destruct (_ || _); [|reflexivity];
       destruct (extractError (respHeader response)); [reflexivity|];
       destruct (unmarshalLPM _ _ _);
       destruct (extractError (Trailer response)); reflexivity.
Qed.

End outcome_facts.

Section outcome_properties.
Context `{RT : Runtime}.

Lemma readsBody_spec response :
  readsBody response = true
  <-> StatusCode response = 200
      /\ (responseCompression response = CompressionIdentity
          \/ responseCompression response = CompressionGzip)
      /\ extractError (respHeader response) = None.
Proof.
  unfold readsBody. rewrite !andb_true_iff, orb_true_iff, Z.eqb_eq.
  rewrite !bool_decide_eq_true. tauto.
Qed.

(** The store a call ends in once the transport has returned [response]. *)
Lemma responseOutcome_store cfg response pre hdr res0 :
  fst (responseOutcome cfg response pre hdr res0)
  = mkStore
      (pre ++ if readsBody response
              then [EvUnmarshal (responseCompression response) (MaxResponseBytes cfg);
                    EvDrain; EvDrain; EvClose]
              else [EvDrain; EvClose])
      hdr (respHeader response)
      (if readsBody response
       then match unmarshalLPM (respBody response) (responseCompression response)
                    (MaxResponseBytes cfg) with
            | Ok m => m
            | Err _ => res0
            end
       else res0).
Proof.
  unfold responseOutcome, readsBody.
  destruct (StatusCode response =? 200); [|reflexivity]. cbn [negb andb].
  destruct (_ || _); [|reflexivity]. cbn [andb].
  destruct (extractError (respHeader response)) eqn:Hh.
  - rewrite bool_decide_eq_false_2 by done. reflexivity.
  - rewrite bool_decide_eq_true_2 by done. destruct (unmarshalLPM _ _ _); reflexivity.
Qed.

(** What a call returns once the transport has returned [response]. *)
Lemma responseOutcome_result cfg response pre hdr res0 :
  snd (responseOutcome cfg response pre hdr res0)
  = if negb (StatusCode response =? 200) then
      inr (errorf (httpStatusTable (StatusCode response)) "HTTP status %v"
             [ArgInt (StatusCode response)])
    else if negb (bool_decide (responseCompression response = CompressionIdentity)
                  || bool_decide (responseCompression response = CompressionGzip)) then
      inr (errorf CodeInternal
             "unknown compression %q: accepted grpc-encoding values are %v"
             [ArgString (responseCompression response); ArgString acceptEncodingValue])
    else
      match extractError (respHeader response) with
      | Some e => inr e
      | None =>
          match extractError (Trailer response),
                unmarshalLPM (respBody response) (responseCompression response)
                  (MaxResponseBytes cfg) with
          | Some e, _ => inr e
          | None, Err ue =>
              inr (errorfW CodeUnknown "server returned invalid protobuf: %w" ue)
          | None, Ok _ => inl tt
          end
      end.
Proof.
  unfold responseOutcome.
  destruct (negb (StatusCode response =? 200)).
  { cbn [snd]. by rewrite <- httpToGRPC_table. }
  destruct (_ || _); [|reflexivity]. cbn [negb].
  destruct (extractError (respHeader response)); [reflexivity|].
  destruct (unmarshalLPM _ _ _), (extractError (Trailer response)); reflexivity.
Qed.

Lemma call_paths c ctx req cfg hdr res0 : callPath c ctx req cfg hdr res0.
Proof.
  pose proof (runCall_outcome c ctx req cfg hdr res0) as Hrun.
  unfold callOutcome in Hrun.
  destruct (CallMeta ctx) as [md|] eqn:Hmd; [|by apply PathNoMetadata].
  assert (Hdl : (exists deadline, Deadline ctx = Some deadline /\ time_Until deadline <= 0
                                  /\ (match Deadline ctx with
                                      | Some deadline => time_Until deadline <=? 0
                                      | None => false
                                      end) = true
                                  /\ default 0 (Deadline ctx) = deadline)
                \/ ((forall deadline, Deadline ctx = Some deadline -> 0 < time_Until deadline)
                    /\ (match Deadline ctx with
                        | Some deadline => time_Until deadline <=? 0
                        | None => false
                        end) = false)).
  { destruct (Deadline ctx) as [deadline|]; [|right; split; [done|done]].
    destruct (Z.leb_spec (time_Until deadline) 0).
    - left. by exists deadline.
    - right. split; [|done]. by intros ? [= <-]. }
  destruct Hdl as [(deadline & Hd & Hle & Hexp & Hdef)|[Hok Hexp]]; rewrite Hexp in Hrun.
  { rewrite Hdef in Hrun. by eapply PathExpired. }
  destruct (marshalLPM req _ 0) as [body|e] eqn:Hm; [|by eapply PathMarshal].
  destruct (url_Parse (url c)) as [u|e] eqn:Hu; [|by eapply PathURL].
  cbn [app] in Hrun.
  destruct (doer c _) as [response|e] eqn:Hdo;
    [by eapply PathResponse | by eapply PathTransport].
Qed.

End outcome_properties.

(** X6: a call invokes the transport exactly when the context carries call
    metadata, its deadline (if any) has time left, the request marshals and
    the client's URL parses. *)
Theorem call_reaches_transport (RT : Runtime) (c : Client) (ctx : Context)
    (req : Message) (cfg : callCfg) (hdr : gmap string (list string)) (res0 : Message) :
  (exists request, In (EvDo request) (callTrace c ctx req cfg hdr res0))
  <-> exists md body u,
        CallMeta ctx = Some md
        /\ (forall deadline, Deadline ctx = Some deadline -> 0 < time_Until deadline)
        /\ marshalLPM req (RequestCompression (Spec md)) 0 = Ok body
        /\ url_Parse (url c) = Ok u.
Proof.
  unfold callTrace.
  destruct (call_paths c ctx req cfg hdr res0)
    as [Hmd Hrun|md deadline Hmd Hd Hle Hrun|md e Hmd Hd Hm Hrun|md body e Hmd Hd Hm Hu Hrun
       |md body u e Hmd Hd Hm Hu Hdo Hrun|md body u response Hmd Hd Hm Hu Hdo Hrun];
    rewrite Hrun; split.
  - intros [request []].
  - intros (md & _ & _ & Hmd' & _). congruence.
  - intros [request []].
  - intros (md' & _ & _ & _ & Hd' & _). specialize (Hd' _ Hd). lia.
  - intros [request [Hin|[]]]. discriminate.
  - intros (md' & body & _ & Hmd' & _ & Hm' & _). congruence.
  - intros [request [Hin|[]]]. discriminate.
  - intros (md' & body' & u & Hmd' & _ & _ & Hu'). congruence.
  - intros _. by exists md, body, u.
  - intros _. eexists. right. by left.
  - intros _. by exists md, body, u.
  - intros _. rewrite responseOutcome_store. eexists. cbn [trace app]. right. by left.
Qed.

(** X7: the request a call hands to the transport is a POST to the parsed
    URL of the client with the marshalled message as body and the request
    header set of the call metadata as headers; that set is the one the
    call started with, except that [Grpc-Timeout] holds the encoded time
    left when the context has a deadline and the encoding succeeds; when the
    encoding fails the header is left out and the call goes on. *)
Theorem call_request_sent (RT : Runtime) (c : Client) (ctx : Context)
    (req : Message) (cfg : callCfg) (hdr : gmap string (list string)) (res0 : Message)
    (request : Request) :
  In (EvDo request) (callTrace c ctx req cfg hdr res0) ->
  exists md,
    CallMeta ctx = Some md
    /\ reqMethod request = "POST"
    /\ url_Parse (url c) = Ok (reqURL request)
    /\ marshalLPM req (RequestCompression (Spec md)) 0 = Ok (reqBody request)
    /\ reqHeader request = mdRequest (fst (runCall c ctx req cfg hdr res0))
    /\ (forall key, key <> "Grpc-Timeout" -> reqHeader request !! key = hdr !! key)
    /\ reqHeader request !! "Grpc-Timeout"
       = match Deadline ctx with
         | Some deadline =>
             match encodeTimeout (time_Until deadline) with
             | Ok enc => Some [enc]
             | Err _ => hdr !! "Grpc-Timeout"
             end
         | None => hdr !! "Grpc-Timeout"
         end.
Proof.
  assert (Hhdr : (forall key, key <> "Grpc-Timeout" -> timeoutHeader ctx hdr !! key = hdr !! key)
                 /\ timeoutHeader ctx hdr !! "Grpc-Timeout"
                    = match Deadline ctx with
                      | Some deadline =>
                          match encodeTimeout (time_Until deadline) with
                          | Ok enc => Some [enc]
                          | Err _ => hdr !! "Grpc-Timeout"
                          end
                      | None => hdr !! "Grpc-Timeout"
                      end).
  { unfold timeoutHeader, Set_. destruct (Deadline ctx); [|done].
    destruct (encodeTimeout _); [|done].
    split; [intros key Hk; by rewrite lookup_insert_ne | by rewrite lookup_insert_eq]. }
  destruct Hhdr as [Hother Htimeout].
  unfold callTrace.
  destruct (call_paths c ctx req cfg hdr res0)
    as [Hmd Hrun|md deadline Hmd Hd Hle Hrun|md e Hmd Hd Hm Hrun|md body e Hmd Hd Hm Hu Hrun
       |md body u e Hmd Hd Hm Hu Hdo Hrun|md body u response Hmd Hd Hm Hu Hdo Hrun];
    rewrite Hrun; try rewrite responseOutcome_store; cbn [fst trace mdRequest app].
  1, 2: intros [].
  1, 2: intros [Hin|[]]; discriminate.
  - intros [Hin|[Hin|[]]]; [discriminate|]. injection Hin as <-. by exists md.
  - intros [Hin|[Hin|Hin]]; [discriminate| |].
    + injection Hin as <-. by exists md.
    + destruct (readsBody response); cbn in Hin; intuition discriminate.
Qed.

Lemma call_request_sent_witness :
  reqHeader
    (mkRequest "POST" "http://localhost/ping.v1.Ping/Ping"
       (demoHeader [("Grpc-Timeout", "250n")]) (list_byte_of_string "ping"))
  !! "Grpc-Timeout" = Some ["250n"].
Proof.
  destruct (call_request_sent demoRuntime (demoClient (mkResponse 404 ∅ ∅ []))
              (demoContext (Some 1250)) "ping" demoCfg ∅ ""
              (mkRequest "POST" "http://localhost/ping.v1.Ping/Ping"
                 (demoHeader [("Grpc-Timeout", "250n")]) (list_byte_of_string "ping")))
    as (md & _ & _ & _ & _ & _ & _ & Ht).
  - vm_compute. right. left. reflexivity.
  - exact Ht.
Defined.

(** X8: the effects of a call, in order: nothing; or one marshalling; or
    one marshalling and one invocation of the transport that failed; or,
    after a response, at most one read of the body, which happens exactly
    when the status is 200, the compression is acceptable and there is no
    header-only error, followed by the draining and closing of the body as
    the last effects.  So the transport is invoked at most once, and a
    response body is drained and closed on every exit. *)
Theorem call_trace_shape (RT : Runtime) (c : Client) (ctx : Context)
    (req : Message) (cfg : callCfg) (hdr : gmap string (list string)) (res0 : Message) :
  callTrace c ctx req cfg hdr res0 = []
  \/ exists md,
       CallMeta ctx = Some md
       /\ (callTrace c ctx req cfg hdr res0 = [EvMarshal (RequestCompression (Spec md))]
           \/ exists request,
                (callTrace c ctx req cfg hdr res0
                 = [EvMarshal (RequestCompression (Spec md)); EvDo request]
                 /\ exists e, doer c request = Err e)
                \/ exists response,
                     doer c request = Ok response
                     /\ callTrace c ctx req cfg hdr res0
                        = ([EvMarshal (RequestCompression (Spec md)); EvDo request]
                           ++ if (StatusCode response =? 200)
                                 && (bool_decide (responseCompression response
                                                  = CompressionIdentity)
                                     || bool_decide (responseCompression response
                                                     = CompressionGzip))
                                 && bool_decide (extractError (respHeader response) = None)
                              then [EvUnmarshal (responseCompression response)
                                      (MaxResponseBytes cfg);
                                    EvDrain; EvDrain; EvClose]
                              else [EvDrain; EvClose])%list).
Proof.
  unfold callTrace.
  destruct (call_paths c ctx req cfg hdr res0)
    as [Hmd Hrun|md deadline Hmd Hd Hle Hrun|md e Hmd Hd Hm Hrun|md body e Hmd Hd Hm Hu Hrun
       |md body u e Hmd Hd Hm Hu Hdo Hrun|md body u response Hmd Hd Hm Hu Hdo Hrun];
    rewrite Hrun; try rewrite responseOutcome_store; cbn [fst trace].
  1, 2: by left.
  1, 2: right; exists md; split; [done|]; by left.
  - right. exists md. split; [done|]. right. eexists. left. split; [done|]. by eexists.
  - right. exists md. split; [done|]. right. eexists. right. exists response.
    split; [exact Hdo|]. reflexivity.
Qed.

Section response_paths.
Context `{RT : Runtime}.

Lemma call_response_path c ctx req cfg hdr res0 request response :
  In (EvDo request) (callTrace c ctx req cfg hdr res0) ->
  doer c request = Ok response ->
  exists md,
    CallMeta ctx = Some md
    /\ runCall c ctx req cfg hdr res0
       = responseOutcome cfg response
           [EvMarshal (RequestCompression (Spec md)); EvDo request]
           (reqHeader request) res0.
Proof.
  unfold callTrace. intros Hin Hok.
  destruct (call_paths c ctx req cfg hdr res0)
    as [Hmd Hrun|md deadline Hmd Hd Hle Hrun|md e Hmd Hd Hm Hrun|md body e Hmd Hd Hm Hu Hrun
       |md body u e Hmd Hd Hm Hu Hdo Hrun|md body u response' Hmd Hd Hm Hu Hdo Hrun];
    rewrite Hrun in Hin |- *; try rewrite responseOutcome_store in Hin;
    cbn [fst trace app] in Hin.
  1, 2: destruct Hin.
  1, 2: destruct Hin as [Hin|[]]; discriminate.
  - destruct Hin as [Hin|[Hin|[]]]; [discriminate|]. injection Hin as <-. congruence.
  - destruct Hin as [Hin|[Hin|Hin]]; [discriminate| |].
    + injection Hin as <-. exists md. split; [done|]. cbn [reqHeader]. congruence.
    + destruct (readsBody response'); cbn in Hin; intuition discriminate.
Qed.

Lemma call_failure_path c ctx req cfg hdr res0 request e :
  In (EvDo request) (callTrace c ctx req cfg hdr res0) ->
  doer c request = Err e ->
  exists md,
    CallMeta ctx = Some md
    /\ runCall c ctx req cfg hdr res0
       = (mkStore [EvMarshal (RequestCompression (Spec md)); EvDo request]
            (reqHeader request) ∅ res0,
          inr (transportError e)).
Proof.
  unfold callTrace. intros Hin Herr.
  destruct (call_paths c ctx req cfg hdr res0)
    as [Hmd Hrun|md deadline Hmd Hd Hle Hrun|md e' Hmd Hd Hm Hrun|md body e' Hmd Hd Hm Hu Hrun
       |md body u e' Hmd Hd Hm Hu Hdo Hrun|md body u response Hmd Hd Hm Hu Hdo Hrun];
    rewrite Hrun in Hin |- *; try rewrite responseOutcome_store in Hin;
    cbn [fst trace app] in Hin.
  1, 2: destruct Hin.
  1, 2: destruct Hin as [Hin|[]]; discriminate.
  - destruct Hin as [Hin|[Hin|[]]]; [discriminate|]. injection Hin as <-.
    exists md. split; [done|]. cbn [reqHeader]. congruence.
  - destruct Hin as [Hin|[Hin|Hin]]; [discriminate| |].
    + injection Hin as <-. congruence.
    + destruct (readsBody response); cbn in Hin; intuition discriminate.
Qed.

(** Either no response reached the call and its store holds what the call
    started with, or the transport returned a response. *)
Lemma call_store_without_response c ctx req cfg hdr res0 :
  (res (fst (runCall c ctx req cfg hdr res0)) = res0
   /\ mdResponse (fst (runCall c ctx req cfg hdr res0)) = ∅)
  \/ exists request response,
       In (EvDo request) (callTrace c ctx req cfg hdr res0)
       /\ doer c request = Ok response.
Proof.
  unfold callTrace.
  destruct (call_paths c ctx req cfg hdr res0)
    as [Hmd Hrun|md deadline Hmd Hd Hle Hrun|md e' Hmd Hd Hm Hrun|md body e' Hmd Hd Hm Hu Hrun
       |md body u e' Hmd Hd Hm Hu Hdo Hrun|md body u response Hmd Hd Hm Hu Hdo Hrun];
    rewrite Hrun; try (by left).
  right. eexists _, response. split; [|exact Hdo].
  rewrite responseOutcome_store. cbn [fst trace app]. right. by left.
Qed.

End response_paths.

(** X9: the call touches the response message on one path only, the one
    that reads the body: when the message differs from what the caller
    passed in, the transport has returned a response with status 200, an
    acceptable compression and no header-only error.  When the body of such
    a response unmarshals, the message holds the unmarshalled value whatever
    the trailers say, so also when the call returns the trailers' error.
    What a failing unmarshal leaves in the message is the codec's concern
    and is not stated. *)
Theorem call_response_message (RT : Runtime) (c : Client) (ctx : Context)
    (req : Message) (cfg : callCfg) (hdr : gmap string (list string)) (res0 : Message) :
  (forall request response m,
     In (EvDo request) (callTrace c ctx req cfg hdr res0) ->
     doer c request = Ok response ->
     StatusCode response = 200 ->
     responseCompression response = CompressionIdentity
     \/ responseCompression response = CompressionGzip ->
     extractError (respHeader response) = None ->
     unmarshalLPM (respBody response) (responseCompression response)
       (MaxResponseBytes cfg) = Ok m ->
     res (fst (runCall c ctx req cfg hdr res0)) = m)
  /\ (res (fst (runCall c ctx req cfg hdr res0)) <> res0 ->
      exists request response,
        In (EvDo request) (callTrace c ctx req cfg hdr res0)
        /\ doer c request = Ok response
        /\ StatusCode response = 200
        /\ (responseCompression response = CompressionIdentity
            \/ responseCompression response = CompressionGzip)
        /\ extractError (respHeader response) = None
        /\ In (EvUnmarshal (responseCompression response) (MaxResponseBytes cfg))
             (callTrace c ctx req cfg hdr res0)).
Proof.
  split.
  - intros request response m Hin Hdo Hst Hc Hh Hu.
    destruct (call_response_path _ _ _ _ _ _ _ _ Hin Hdo) as (md & _ & ->).
    rewrite responseOutcome_store. cbn [fst res].
    rewrite (proj2 (readsBody_spec response)) by done. by rewrite Hu.
  - intros Hne.
    destruct (call_store_without_response c ctx req cfg hdr res0)
      as [[Hres _]|(request & response & Hin & Hdo)]; [done|].
    exists request, response. split; [done|]. split; [done|].
    destruct (call_response_path _ _ _ _ _ _ _ _ Hin Hdo) as (md & _ & Hrun).
    unfold callTrace.
    rewrite Hrun, responseOutcome_store in Hne |- *. cbn [fst res trace] in Hne |- *.
    destruct (readsBody response) eqn:Hrb; [|done].
    apply readsBody_spec in Hrb as (Hst & Hc & Hh).
    split; [done|]. split; [done|]. split; [done|].
    cbn [app In]. right. right. left. reflexivity.
Qed.

Lemma call_response_message_witness :
  let response := mkResponse 200 ∅ (demoHeader [("Grpc-Status", "10")])
                    (list_byte_of_string "pong") in
  callError (RT := demoRuntime) (demoClient response) (demoContext None) "ping" demoCfg ∅ ""
  = Some (wrap CodeAborted (ErrorsNew ""))
  /\ res (fst (runCall (RT := demoRuntime) (demoClient response) (demoContext None)
                 "ping" demoCfg ∅ "")) = "pong".
Proof.
  intros response. split; [vm_compute; reflexivity|].
  destruct (call_response_message demoRuntime (demoClient response) (demoContext None)
              "ping" demoCfg ∅ "") as [H _].
  apply (H demoSent response "pong").
  - vm_compute. right. left. reflexivity.
  - reflexivity.
  - reflexivity.
  - left. vm_compute. reflexivity.
  - vm_compute. reflexivity.
  - vm_compute. reflexivity.
Defined.

(** X10: the response header set of the call metadata holds the headers of
    the response as soon as the transport has returned one, whatever its
    status, also when the call then fails; when no response arrived it is
    still empty. *)
Theorem call_response_headers (RT : Runtime) (c : Client) (ctx : Context)
    (req : Message) (cfg : callCfg) (hdr : gmap string (list string)) (res0 : Message) :
  (forall request response,
     In (EvDo request) (callTrace c ctx req cfg hdr res0) ->
     doer c request = Ok response ->
     mdResponse (fst (runCall c ctx req cfg hdr res0)) = respHeader response)
  /\ (mdResponse (fst (runCall c ctx req cfg hdr res0)) <> ∅ ->
      exists request response,
        In (EvDo request) (callTrace c ctx req cfg hdr res0)
        /\ doer c request = Ok response).
Proof.
  split.
  - intros request response Hin Hdo.
    destruct (call_response_path _ _ _ _ _ _ _ _ Hin Hdo) as (md & _ & ->).
    by rewrite responseOutcome_store.
  - intros Hne.
    destruct (call_store_without_response c ctx req cfg hdr res0) as [[_ Hmd]|H]; done.
Qed.

Lemma call_response_headers_witness :
  let response := mkResponse 503 (demoHeader [("Retry-After", "3")]) ∅ [] in
  mdResponse (fst (runCall (RT := demoRuntime) (demoClient response) (demoContext None)
                     "ping" demoCfg ∅ ""))
  = demoHeader [("Retry-After", "3")].
Proof.
  intros response.
  destruct (call_response_headers demoRuntime (demoClient response) (demoContext None)
              "ping" demoCfg ∅ "") as [H _].
  apply (H demoSent response).
  - vm_compute. right. left. reflexivity.
  - reflexivity.
Defined.

(** X11: when the transport fails, the call returns Canceled if
    [context.Canceled] is the error or is wrapped in it at any depth, also
    when [context.DeadlineExceeded] is wrapped in it as well; when
    [errors.Is] does not find [context.Canceled], it returns
    DeadlineExceeded if [context.DeadlineExceeded] is the error or is
    wrapped in it; when [errors.Is] finds neither, it returns an Unknown
    error that carries the transport's error itself.  Nothing is read,
    drained or closed, and the response message and the response header set
    are left as they were. *)
Theorem call_transport_failure (RT : Runtime) (c : Client) (ctx : Context)
    (req : Message) (cfg : callCfg) (hdr : gmap string (list string)) (res0 : Message)
    (request : Request) (e : goerror) :
  In (EvDo request) (callTrace c ctx req cfg hdr res0) ->
  doer c request = Err e ->
  (In ContextCanceled (errorChain e) ->
   callError c ctx req cfg hdr res0 = Some (errorf CodeCanceled "context canceled" []))
  /\ (errors_Is e ContextCanceled = false ->
      In ContextDeadlineExceeded (errorChain e) ->
      callError c ctx req cfg hdr res0
      = Some (errorf CodeDeadlineExceeded "context deadline exceeded" []))
  /\ (errors_Is e ContextCanceled = false ->
      errors_Is e ContextDeadlineExceeded = false ->
      callError c ctx req cfg hdr res0 = Some (wrap CodeUnknown e))
  /\ (exists k, callTrace c ctx req cfg hdr res0 = [EvMarshal k; EvDo request])
  /\ res (fst (runCall c ctx req cfg hdr res0)) = res0
  /\ mdResponse (fst (runCall c ctx req cfg hdr res0)) = ∅.
Proof.
  intros Hin Herr.
  destruct (call_failure_path _ _ _ _ _ _ _ _ Hin Herr) as (md & _ & Hrun).
  unfold callError, callTrace. rewrite Hrun. cbn [fst snd trace res mdResponse].
  unfold transportError. rewrite <- !errors_Is_chain.
  split; [|split; [|split; [|split; [|split]]]].
  - by intros ->.
  - by intros -> ->.
  - by intros -> ->.
  - by eexists.
  - reflexivity.
  - reflexivity.
Qed.

Lemma call_transport_failure_witness :
  let c := mkClient (fun _ => Err (FmtErrorfW "Post: %w" ContextCanceled))
             "http://localhost/ping.v1.Ping/Ping" "ping.v1.Ping.Ping" in
  callError (RT := demoRuntime) c (demoContext None) "ping" demoCfg ∅ ""
  = Some (errorf CodeCanceled "context canceled" []).
Proof.
  intros c.
  destruct (call_transport_failure demoRuntime c (demoContext None) "ping" demoCfg ∅ ""
              demoSent (FmtErrorfW "Post: %w" ContextCanceled)) as (H & _).
  - vm_compute. right. left. reflexivity.
  - reflexivity.
  - apply H. right. left. reflexivity.
Defined.

(** X12: a call returns [nil] exactly when the transport returned a
    response with status 200, an acceptable compression, no header-only
    error, no error in the trailers and a body that unmarshals; the
    response message then holds the unmarshalled message. *)
Theorem call_success_iff (RT : Runtime) (c : Client) (ctx : Context)
    (req : Message) (cfg : callCfg) (hdr : gmap string (list string)) (res0 : Message) :
  callError c ctx req cfg hdr res0 = None
  <-> exists request response,
        In (EvDo request) (callTrace c ctx req cfg hdr res0)
        /\ doer c request = Ok response
        /\ StatusCode response = 200
        /\ (responseCompression response = CompressionIdentity
            \/ responseCompression response = CompressionGzip)
        /\ extractError (respHeader response) = None
        /\ extractError (Trailer response) = None
        /\ unmarshalLPM (respBody response) (responseCompression response)
             (MaxResponseBytes cfg)
           = Ok (res (fst (runCall c ctx req cfg hdr res0))).
Proof.
  split.
  - intros Hnil. unfold callError, callTrace in *.
    destruct (call_paths c ctx req cfg hdr res0)
      as [Hmd Hrun|md deadline Hmd Hd Hle Hrun|md e Hmd Hd Hm Hrun
         |md body e Hmd Hd Hm Hu Hrun|md body u e Hmd Hd Hm Hu Hdo Hrun
         |md body u response Hmd Hd Hm Hu Hdo Hrun];
      rewrite Hrun in Hnil |- *; try discriminate.
    rewrite responseOutcome_result in Hnil. rewrite responseOutcome_store.
    cbn [fst trace res app].
    destruct (Z.eqb_spec (StatusCode response) 200) as [Hst|]; [|discriminate].
    cbn [negb] in Hnil.
    destruct (_ || _) eqn:Hc in Hnil; [|discriminate]. cbn [negb] in Hnil.
    apply orb_true_iff in Hc. rewrite !bool_decide_eq_true in Hc.
    destruct (extractError (respHeader response)) eqn:Hh; [discriminate|].
    destruct (extractError (Trailer response)) eqn:Ht; [discriminate|].
    destruct (unmarshalLPM _ _ _) as [m|] eqn:Hum; [|discriminate].
    rewrite (proj2 (readsBody_spec response)) by done.
    eexists _, response. split; [right; by left|]. by rewrite Hum.
  - intros (request & response & Hin & Hdo & Hst & Hc & Hh & Ht & Hum).
    destruct (call_response_path _ _ _ _ _ _ _ _ Hin Hdo) as (md & _ & Hrun).
    unfold callError. rewrite Hrun, responseOutcome_result, Hst, Hh, Ht, Hum.
    assert (Hok : bool_decide (responseCompression response = CompressionIdentity)
                  || bool_decide (responseCompression response = CompressionGzip) = true).
    { apply orb_true_iff. by rewrite !bool_decide_eq_true. }
    by rewrite Hok.
Qed.

(** X13: an error a call returns either was extracted from the headers or
    the trailers of a response with status 200, or was made by the client
    itself; an error of the client's own carries no details, and its code is
    one of Canceled, Unknown, InvalidArgument, DeadlineExceeded,
    PermissionDenied, Unimplemented, Internal, Unavailable and
    Unauthenticated, never OK. *)
Theorem call_own_errors (RT : Runtime) (c : Client) (ctx : Context)
    (req : Message) (cfg : callCfg) (hdr : gmap string (list string)) (res0 : Message)
    (e : Error) :
  callError c ctx req cfg hdr res0 = Some e ->
  (exists request response,
     In (EvDo request) (callTrace c ctx req cfg hdr res0)
     /\ doer c request = Ok response
     /\ StatusCode response = 200
     /\ (extractError (respHeader response) = Some e
         \/ extractError (Trailer response) = Some e))
  \/ (details e = []
      /\ In (code e)
           [CodeCanceled; CodeUnknown; CodeInvalidArgument; CodeDeadlineExceeded;
            CodePermissionDenied; CodeUnimplemented; CodeInternal; CodeUnavailable;
            CodeUnauthenticated]).
Proof.
  assert (Htable : forall status,
    In (httpStatusTable status)
      [CodeCanceled; CodeUnknown; CodeInvalidArgument; CodeDeadlineExceeded;
       CodePermissionDenied; CodeUnimplemented; CodeInternal; CodeUnavailable;
       CodeUnauthenticated]).
  { intros status. unfold httpStatusTable.
    repeat (match goal with
            | |- context [if ?b then _ else _] => destruct b
            end); cbn; tauto. }
  unfold callError, callTrace.
  destruct (call_paths c ctx req cfg hdr res0)
    as [Hmd Hrun|md deadline Hmd Hd Hle Hrun|md e' Hmd Hd Hm Hrun
       |md body e' Hmd Hd Hm Hu Hrun|md body u e' Hmd Hd Hm Hu Hdo Hrun
       |md body u response Hmd Hd Hm Hu Hdo Hrun];
    rewrite Hrun; cbn [snd].
  1-4: intros [= <-]; right; split; [done|]; cbn; tauto.
  - intros [= <-]. right. unfold transportError.
    destruct (errors_Is e' ContextCanceled); [split; [done|]; cbn; tauto|].
    destruct (errors_Is e' ContextDeadlineExceeded); split; try done; cbn; tauto.
  - rewrite responseOutcome_result, responseOutcome_store. cbn [fst trace app].
    destruct (Z.eqb_spec (StatusCode response) 200) as [Hst|]; cbn [negb].
    2: { intros [= <-]. right. split; [done|]. apply Htable. }
    destruct (negb _); [intros [= <-]; right; split; [done|]; cbn; tauto|].
    destruct (extractError (respHeader response)) as [eh|] eqn:Hh.
    { intros [= <-]. left. eexists _, response.
      split; [right; by left|]. split; [done|]. split; [done|]. by left. }
    destruct (extractError (Trailer response)) as [et|] eqn:Ht.
    { intros [= <-]. left. eexists _, response.
      split; [right; by left|]. split; [done|]. split; [done|]. by right. }
    destruct (unmarshalLPM _ _ _); [discriminate|].
    intros [= <-]. right. split; [done|]. cbn; tauto.
Qed.

Lemma call_own_errors_witness :
  In (code (errorf CodeUnavailable "HTTP status %v" [ArgInt 503]))
    [CodeCanceled; CodeUnknown; CodeInvalidArgument; CodeDeadlineExceeded;
     CodePermissionDenied; CodeUnimplemented; CodeInternal; CodeUnavailable;
     CodeUnauthenticated].
Proof.
  destruct (call_own_errors demoRuntime (demoClient (mkResponse 503 ∅ ∅ []))
              (demoContext None) "ping" demoCfg ∅ ""
              (errorf CodeUnavailable "HTTP status %v" [ArgInt 503]))
    as [(request & response & Hin & Hdo & Hst & _)|[_ H]].
  - vm_compute. reflexivity.
  - injection Hdo as <-. discriminate Hst.
  - exact H.
Defined.

(** ** Header and trailer errors, further *)

(** X14: [extractError] returns [nil] exactly when [Grpc-Status] is absent,
    empty or the one-character string 0; every other value gives a non-nil
    error, whatever the other headers hold. *)
Theorem extractError_nil_iff (RT : Runtime) (h : gmap string (list string)) :
  extractError h = None
  <-> Get h "Grpc-Status" = "" \/ Get h "Grpc-Status" = "0".
Proof.
  split; [|apply extractError_success].
  unfold extractError.
  destruct (decide (Get h "Grpc-Status" = "")) as [|H1]; [by left|].
  destruct (decide (Get h "Grpc-Status" = "0")) as [|H2]; [by right|].
  rewrite !bool_decide_eq_false_2 by done. cbn [orb].
  destruct (strconv.Atoi _) as [n [e|]]; [discriminate|].
  destruct (0 <? _); [|discriminate].
  destruct (decodeBinaryHeader _); [|discriminate].
  destruct (proto_Unmarshal _); discriminate.
Qed.

(** X15: a status value that denotes zero without being the string 0 (00,
    +0, -0 and the like) is not a success: with no details payload the
    result is a non-nil error whose code is OK. *)
Theorem extractError_zero_status (RT : Runtime) (h : gmap string (list string)) :
  strconv.Atoi (Get h "Grpc-Status") = (0, None) ->
  Get h "Grpc-Status" <> "0" ->
  Get h "Grpc-Status-Details-Bin" = "" ->
  extractError h
  = Some (wrap CodeOK (ErrorsNew (percentDecode (Get h "Grpc-Message")))).
Proof.
  intros Ha H0 Hd.
  assert (H1 : Get h "Grpc-Status" <> "").
  { intros Heq. rewrite Heq in Ha. vm_compute in Ha. discriminate. }
  rewrite (extractError_parsed h 0 H1 H0 Ha), Hd. reflexivity.
Qed.

Lemma extractError_zero_status_witness :
  extractError (RT := demoRuntime) (demoHeader [("Grpc-Status", "00"); ("Grpc-Message", "fine")])
  = Some (wrap CodeOK (ErrorsNew "fine")).
Proof.
  apply (extractError_zero_status demoRuntime
           (demoHeader [("Grpc-Status", "00"); ("Grpc-Message", "fine")])).
  - vm_compute. reflexivity.
  - vm_compute. discriminate.
  - vm_compute. reflexivity.
Defined.

(** X16: the details of an error come from nowhere but a status payload:
    when the error [extractError] returns has details, the header set
    carries a [Grpc-Status-Details-Bin] value that decodes and parses, and
    code, message and details of the error are those of the payload. *)
Theorem extractError_details_origin (RT : Runtime) (h : gmap string (list string))
    (e : Error) :
  extractError h = Some e ->
  details e <> [] ->
  exists detailsBinary status,
    Get h "Grpc-Status-Details-Bin" <> ""
    /\ decodeBinaryHeader (Get h "Grpc-Status-Details-Bin") = Ok detailsBinary
    /\ proto_Unmarshal detailsBinary = Ok status
    /\ e = mkError (toCode (Status_Code status)) (ErrorsNew (Status_Message status))
             (Status_Details status).
Proof.
  unfold extractError. intros He Hd.
  destruct (_ || _); [discriminate|].
  destruct (strconv.Atoi _) as [n [e'|]].
  { injection He as <-. done. }
  destruct (Get h "Grpc-Status-Details-Bin") as [|a rest] eqn:Hg.
  { injection He as <-. done. }
  cbn [String.length] in He.
  destruct (Z.ltb_spec 0 (Z.of_nat (S (String.length rest)))); [|lia].
  destruct (decodeBinaryHeader _) as [bin|] eqn:Hb; [|injection He as <-; done].
  destruct (proto_Unmarshal bin) as [st|] eqn:Hp; [|injection He as <-; done].
  injection He as <-. exists bin, st. by repeat split.
Qed.

Lemma extractError_details_origin_witness :
  exists detailsBinary status,
    @decodeBinaryHeader demoRuntime "7rest" = Ok detailsBinary
    /\ @proto_Unmarshal demoRuntime detailsBinary = Ok status
    /\ Status_Details status = [mkAny "detail" (list_byte_of_string "rest")].
Proof.
  destruct (extractError_details_origin demoRuntime
              (demoHeader [("Grpc-Status", "5"); ("Grpc-Status-Details-Bin", "7rest")])
              (mkError 7 (ErrorsNew "from details")
                 [mkAny "detail" (list_byte_of_string "rest")]))
    as (bin & st & _ & Hb & Hp & He).
  - vm_compute. reflexivity.
  - discriminate.
  - exists bin, st. split; [exact Hb|]. split; [exact Hp|]. by injection He as _ _ <-.
Defined.

(** ** The call pipeline *)

Section Call_facts.
Context `{RT : Runtime}.
Variable UserAgent : string.

(** Without an interceptor, [Call] is [call] on a context that carries the
    metadata and on the header set [Call] has built. *)
Lemma Call_without_interceptor c ctx req callOpts s :
  Interceptor (foldOptions c callOpts) = None ->
  Call UserAgent c ctx req callOpts s
  = call (client c)
      (mkContext
         (Some (mkCallMetadata
                  (mkSpecification (method (client c))
                     (if EnableGzipRequest (cfgCall (foldOptions c callOpts))
                      then CompressionGzip else CompressionIdentity))))
         (ctxDeadline ctx))
      req (cfgCall (foldOptions c callOpts))
      (mkStore (trace s)
         (callHeader UserAgent (EnableGzipRequest (cfgCall (foldOptions c callOpts))))
         ∅ (res s)).
Proof.
  intros Hi. unfold Call, bind, NewCallContext. rewrite Hi.
  assert (Hh : forall spec : Specification,
    Set_ (Set_ (Set_ (Set_ (Set_ ∅ "User-Agent" UserAgent) "Content-Type" TypeDefaultGRPC)
                  "Grpc-Encoding" (RequestCompression spec))
            "Grpc-Accept-Encoding" acceptEncodingValue) "Te" "trailers"
    = list_to_map
        [ ("User-Agent", [UserAgent]); ("Content-Type", [TypeDefaultGRPC]);
          ("Grpc-Encoding", [RequestCompression spec]);
          ("Grpc-Accept-Encoding", [acceptEncodingValue]); ("Te", ["trailers"]) ]).
  { intros spec. unfold Set_. cbn [list_to_map foldr fst snd]. apply map_eq. intros key.
    repeat (rewrite lookup_insert; case_decide; [subst; vm_compute; reflexivity|]).
    rewrite !lookup_insert_ne by done. reflexivity. }
  rewrite Hh. unfold callHeader.
  destruct (EnableGzipRequest (cfgCall (foldOptions c callOpts))); reflexivity.
Qed.

Lemma timeoutHeader_Get ctx (hdr : gmap string (list string)) key :
  key <> "Grpc-Timeout" -> Get (timeoutHeader ctx hdr) key = Get hdr key.
Proof.
  intros Hk. unfold timeoutHeader, Get, Set_. destruct (Deadline ctx); [|done].
  destruct (encodeTimeout _); [|done]. by rewrite lookup_insert_ne.
Qed.

Lemma callHeader_Get gzip :
  Get (callHeader UserAgent gzip) "User-Agent" = UserAgent
  /\ Get (callHeader UserAgent gzip) "Content-Type" = TypeDefaultGRPC
  /\ Get (callHeader UserAgent gzip) "Te" = "trailers"
  /\ Get (callHeader UserAgent gzip) "Grpc-Accept-Encoding" = acceptEncodingValue
  /\ Get (callHeader UserAgent gzip) "Grpc-Encoding"
     = (if gzip then CompressionGzip else CompressionIdentity).
Proof.
  unfold Get, callHeader. cbn [list_to_map foldr fst snd].
  split; [|split; [|split; [|split]]].
  - by rewrite lookup_insert.
  - rewrite lookup_insert_ne by done. by rewrite lookup_insert.
  - do 4 (rewrite lookup_insert_ne by done). by rewrite lookup_insert.
  - do 3 (rewrite lookup_insert_ne by done). by rewrite lookup_insert.
  - do 2 (rewrite lookup_insert_ne by done). by rewrite lookup_insert.
Qed.

End Call_facts.

(** X17: on a call made through [Call] without an interceptor, the request
    that reaches the transport is a POST that carries the user agent, the
    gRPC content type, [Te: trailers], the accept-encoding value and a
    [Grpc-Encoding] that is gzip exactly when the folded options enable
    gzip requests; the body was marshalled with the very compression that
    [Grpc-Encoding] names. *)
Theorem Call_wire_headers (RT : Runtime) (UserAgent : string) (c : ClientO)
    (ctx : Context) (req : Message) (callOpts : list CallOption)
    (h1 h2 : gmap string (list string)) (res0 : Message) (request : Request) :
  Interceptor (foldOptions c callOpts) = None ->
  In (EvDo request)
    (trace (fst (Call UserAgent c ctx req callOpts (mkStore [] h1 h2 res0)))) ->
  reqMethod request = "POST"
  /\ Get (reqHeader request) "User-Agent" = UserAgent
  /\ Get (reqHeader request) "Content-Type" = "application/grpc+proto"
  /\ Get (reqHeader request) "Te" = "trailers"
  /\ Get (reqHeader request) "Grpc-Accept-Encoding" = acceptEncodingValue
  /\ Get (reqHeader request) "Grpc-Encoding"
     = (if EnableGzipRequest (cfgCall (foldOptions c callOpts)) then "gzip" else "identity")
  /\ In (EvMarshal (Get (reqHeader request) "Grpc-Encoding"))
       (trace (fst (Call UserAgent c ctx req callOpts (mkStore [] h1 h2 res0)))).
Proof.
  intros Hi. rewrite (Call_without_interceptor UserAgent) by done. cbn [trace res].
  set (gzip := EnableGzipRequest (cfgCall (foldOptions c callOpts))).
  set (ctx' := mkContext _ _).
  change (call (client c) ctx' req (cfgCall (foldOptions c callOpts))
            (mkStore [] (callHeader UserAgent gzip) ∅ res0))
    with (runCall (client c) ctx' req (cfgCall (foldOptions c callOpts))
            (callHeader UserAgent gzip) res0).
  destruct (call_paths (client c) ctx' req (cfgCall (foldOptions c callOpts))
              (callHeader UserAgent gzip) res0)
    as [Hmd Hrun|md deadline Hmd Hd Hle Hrun|md e Hmd Hd Hm Hrun|md body e Hmd Hd Hm Hu Hrun
       |md body u e Hmd Hd Hm Hu Hdo Hrun|md body u response Hmd Hd Hm Hu Hdo Hrun];
    rewrite Hrun; try rewrite responseOutcome_store; cbn [fst trace app].
  1, 2: intros [].
  1, 2: intros [Hin|[]]; discriminate.
  all: injection Hmd as <-; cbn [Spec RequestCompression].
  all: intros Hin;
    assert (Hreq : request = mkRequest "POST" u (timeoutHeader ctx' (callHeader UserAgent gzip)) body)
      by (destruct Hin as [Hin|[Hin|Hin]];
          [discriminate | by injection Hin
          | try destruct (readsBody response); cbn in Hin; intuition discriminate]);
    subst request; cbn [reqMethod reqHeader];
    rewrite !timeoutHeader_Get by done.
  all: destruct (callHeader_Get UserAgent gzip) as (Hua & Hct & Hte & Hae & Henc);
       rewrite Hua, Hct, Hte, Hae, Henc.
  all: (split; [reflexivity|]); (split; [reflexivity|]); (split; [reflexivity|]);
       (split; [reflexivity|]); (split; [reflexivity|]);
       (split; [destruct gzip; reflexivity|]); left; reflexivity.
Qed.

Lemma Call_wire_headers_witness :
  let c := NewClient (fun _ => Ok (mkResponse 404 ∅ ∅ []))
             "http://localhost/ping.v1.Ping/Ping" "ping.v1.Ping.Ping"
             [fun cfg => mkCallCfgI (mkCallCfg true 0) (Interceptor (RT := demoRuntime) cfg)] in
  let request := mkRequest "POST" "http://localhost/ping.v1.Ping/Ping"
                   (callHeader "rerpc-go" true) (list_byte_of_string "ping") in
  Get (reqHeader request) "Grpc-Encoding" = "gzip"
  /\ In (EvMarshal "gzip")
       (trace (fst (Call (RT := demoRuntime) "rerpc-go" c (mkContext None None) "ping" []
                      (mkStore (RT := demoRuntime) [] ∅ ∅ "")))).
Proof.
  intros c request.
  destruct (Call_wire_headers demoRuntime "rerpc-go" c (mkContext None None) "ping" []
              ∅ ∅ "" request) as (_ & _ & _ & _ & _ & He & Hm).
  - reflexivity.
  - vm_compute. right. left. reflexivity.
  - split; [exact He|]. rewrite He in Hm. exact Hm.
Defined.

(** X18: [Call] without an interceptor attaches the call metadata itself,
    so the call never stops for lack of it, whatever context the caller
    passes: a deadline with no time left gives DeadlineExceeded with no
    effect at all, and in every other case the call goes on to marshal the
    request, with the compression the folded options select. *)
Theorem Call_attaches_metadata (RT : Runtime) (UserAgent : string) (c : ClientO)
    (ctx : Context) (req : Message) (callOpts : list CallOption)
    (h1 h2 : gmap string (list string)) (res0 : Message) :
  Interceptor (foldOptions c callOpts) = None ->
  (forall deadline,
     Deadline ctx = Some deadline -> time_Until deadline <= 0 ->
     snd (Call UserAgent c ctx req callOpts (mkStore [] h1 h2 res0))
     = inr (errorf CodeDeadlineExceeded "no time to make RPC: timeout is %v"
              [ArgDuration (time_Until deadline)])
     /\ trace (fst (Call UserAgent c ctx req callOpts (mkStore [] h1 h2 res0))) = [])
  /\ ((forall deadline, Deadline ctx = Some deadline -> 0 < time_Until deadline) ->
      exists rest,
        trace (fst (Call UserAgent c ctx req callOpts (mkStore [] h1 h2 res0)))
        = EvMarshal (if EnableGzipRequest (cfgCall (foldOptions c callOpts))
                     then "gzip" else "identity") :: rest).
Proof.
  intros Hi. rewrite (Call_without_interceptor UserAgent) by done. cbn [trace res].
  set (gzip := EnableGzipRequest (cfgCall (foldOptions c callOpts))).
  set (ctx' := mkContext _ _).
  change (call (client c) ctx' req (cfgCall (foldOptions c callOpts))
            (mkStore [] (callHeader UserAgent gzip) ∅ res0))
    with (runCall (client c) ctx' req (cfgCall (foldOptions c callOpts))
            (callHeader UserAgent gzip) res0).
  assert (Henc : RequestCompression (Spec (mkCallMetadata
                    (mkSpecification (method (client c))
                       (if gzip then CompressionGzip else CompressionIdentity))))
                 = if gzip then "gzip" else "identity")
    by (destruct gzip; reflexivity).
  destruct (call_paths (client c) ctx' req (cfgCall (foldOptions c callOpts))
              (callHeader UserAgent gzip) res0)
    as [Hmd Hrun|md deadline Hmd Hd Hle Hrun|md e Hmd Hd Hm Hrun|md body e Hmd Hd Hm Hu Hrun
       |md body u e Hmd Hd Hm Hu Hdo Hrun|md body u response Hmd Hd Hm Hu Hdo Hrun];
    rewrite Hrun; try rewrite responseOutcome_store; cbn [fst snd trace app].
  - discriminate Hmd.
  - split.
    + intros deadline' Hd' _. change (Deadline ctx') with (Deadline ctx) in Hd.
      rewrite Hd' in Hd. injection Hd as ->. by split.
    + intros Hpos. change (Deadline ctx') with (Deadline ctx) in Hd.
      specialize (Hpos deadline Hd). lia.
  - injection Hmd as <-. rewrite Henc. split; [|by eexists].
    intros deadline Hd' Hle. specialize (Hd deadline Hd'). lia.
  - injection Hmd as <-. rewrite Henc. split; [|by eexists].
    intros deadline Hd' Hle. specialize (Hd deadline Hd'). lia.
  - injection Hmd as <-. rewrite Henc. split; [|by eexists].
    intros deadline Hd' Hle. specialize (Hd deadline Hd'). lia.
  - injection Hmd as <-. rewrite Henc. split.
    + intros deadline Hd' Hle. specialize (Hd deadline Hd'). lia.
    + intros _. destruct (readsBody response); cbn [app]; by eexists.
Qed.

Lemma Call_attaches_metadata_witness :
  let c := NewClient (RT := demoRuntime) (fun _ => Ok (mkResponse 200 ∅ ∅ []))
             "http://localhost/ping.v1.Ping/Ping" "ping.v1.Ping.Ping" [] in
  snd (Call (RT := demoRuntime) "rerpc-go" c (mkContext None (Some 1000)) "ping" []
         (mkStore (RT := demoRuntime) [] ∅ ∅ ""))
  = inr (errorf CodeDeadlineExceeded "no time to make RPC: timeout is %v" [ArgDuration 0]).
Proof.
  intros c.
  destruct (Call_attaches_metadata demoRuntime "rerpc-go" c (mkContext None (Some 1000))
              "ping" [] ∅ ∅ "") as [H _]; [reflexivity|].
  apply (H 1000); [reflexivity | vm_compute; discriminate].
Defined.

(** ** The example server *)

Section int64_facts.

Lemma toInt64_range z : minInt64 <= strconv.toInt64 z <= maxInt64.
Proof.
  unfold strconv.toInt64, minInt64, maxInt64.
  pose proof (Z.mod_pos_bound (z + 2 ^ 63) (2 ^ 64) ltac:(lia)). lia.
Qed.

Lemma toInt64_add_l a b : strconv.toInt64 (strconv.toInt64 a + b) = strconv.toInt64 (a + b).
Proof.
  unfold strconv.toInt64. f_equal.
  replace ((a + 2 ^ 63) mod 2 ^ 64 - 2 ^ 63 + b + 2 ^ 63)
    with ((a + 2 ^ 63) mod 2 ^ 64 + b) by lia.
  rewrite Zplus_mod_idemp_l. f_equal. lia.
Qed.

Lemma toInt64_id z : minInt64 <= z <= maxInt64 -> strconv.toInt64 z = z.
Proof.
  unfold strconv.toInt64, minInt64, maxInt64. intros Hz.
  rewrite Z.mod_small by lia. lia.
Qed.

Lemma sumZ_app l1 l2 : sumZ (l1 ++ l2) = sumZ l1 + sumZ l2.
Proof. unfold sumZ. induction l1 as [|x l1 IH]; cbn [app foldr]; lia. Qed.

Lemma sumZ_Permutation l1 l2 : Permutation l1 l2 -> sumZ l1 = sumZ l2.
Proof. unfold sumZ. induction 1; cbn [foldr]; lia. Qed.

Lemma Sum_loop_sum messages sum :
  strconv.toInt64 (Sum_loop messages sum) = strconv.toInt64 (sum + sumZ messages).
Proof.
  revert sum. induction messages as [|n rest IH]; intros sum.
  - cbn [Sum_loop]. unfold sumZ. cbn [foldr]. f_equal. lia.
  - cbn [Sum_loop]. rewrite IH. unfold addInt64. rewrite toInt64_add_l.
    unfold sumZ. cbn [foldr]. f_equal. lia.
Qed.

Lemma Sum_loop_range messages sum :
  minInt64 <= sum <= maxInt64 -> minInt64 <= Sum_loop messages sum <= maxInt64.
Proof.
  revert sum. induction messages as [|n rest IH]; intros sum Hs; cbn [Sum_loop]; [done|].
  apply IH, toInt64_range.
Qed.

Lemma Sum_loop_exact messages :
  Sum_loop messages 0 = strconv.toInt64 (sumZ messages).
Proof.
  rewrite <- (toInt64_id (Sum_loop messages 0)).
  - by rewrite Sum_loop_sum.
  - apply Sum_loop_range. unfold minInt64, maxInt64. lia.
Qed.

End int64_facts.

(** X19: [Sum] answers with the exact sum of all numbers received, wrapped
    once to 64 bits, although the handler wraps at every addition; the
    answer lies in the [int64] range and does not depend on the order of
    the messages; when the stream ended with an error, that error is
    returned and the sum is dropped. *)
Theorem Sum_exact (stream : ClientStream) :
  Sum stream
  = match csErr stream with
    | Some err => Err err
    | None => Ok (strconv.toInt64 (sumZ (csMessages stream)))
    end
  /\ (forall s, Sum stream = Ok s -> minInt64 <= s <= maxInt64)
  /\ (forall stream',
        Permutation (csMessages stream) (csMessages stream') ->
        csErr stream' = csErr stream -> Sum stream' = Sum stream).
Proof.
  assert (Heq : forall st, Sum st = match csErr st with
                                    | Some err => Err err
                                    | None => Ok (strconv.toInt64 (sumZ (csMessages st)))
                                    end).
  { intros st. unfold Sum. rewrite Sum_loop_exact. reflexivity. }
  split; [apply Heq|]. split.
  - intros s. rewrite Heq. destruct (csErr stream); [discriminate|].
    intros [= <-]. apply toInt64_range.
  - intros stream' Hp He. rewrite !Heq, He, (sumZ_Permutation _ _ Hp). reflexivity.
Qed.

Section CountUp_facts.
Variable send : Sender.

Lemma CountUp_loop_spec N :
  N < maxInt64 ->
  forall fuel number sent,
    minInt64 <= number ->
    (Z.to_nat (N - number + 1) < fuel)%nat ->
    exists k r,
      0 <= k <= Z.max 0 (N - number + 1)
      /\ CountUp_loop send fuel number N sent = Some ((sent ++ seqZ number k)%list, r)
      /\ (forall j, 0 <= j < k -> send (sent ++ seqZ number j)%list (number + j) = None)
      /\ match r with
         | None => k = Z.max 0 (N - number + 1)
         | Some err =>
             k < N - number + 1
             /\ send (sent ++ seqZ number k)%list (number + k) = Some err
         end.
Proof.
  intros HN. induction fuel as [|fuel IH]; intros number sent Hmin Hfuel; [lia|].
  cbn [CountUp_loop]. destruct (Z.leb_spec number N) as [Hle|Hgt].
  - destruct (send sent number) as [err|] eqn:Hsend.
    + exists 0, (Some err). change (seqZ number 0) with (@nil Z).
      rewrite List.app_nil_r, Z.add_0_r. repeat split; try lia; done.
    + assert (Hnext : addInt64 number 1 = number + 1).
      { unfold addInt64. apply toInt64_id. unfold maxInt64 in *. lia. }
      rewrite Hnext.
      destruct (IH (number + 1) (sent ++ [number])%list) as (k & r & Hk & Hrun & Hok & Hr);
        [lia | lia |].
      exists (k + 1), r.
      assert (Hseq : forall j, 0 <= j ->
                (sent ++ seqZ number (j + 1) = (sent ++ [number]) ++ seqZ (number + 1) j)%list).
      { intros j Hj. rewrite seqZ_cons by lia.
        replace (Z.succ number) with (number + 1) by lia.
        replace (Z.pred (j + 1)) with j by lia. by rewrite <- List.app_assoc. }
      split; [lia|]. split; [by rewrite Hseq by lia|]. split.
      * intros j Hj. destruct (decide (j = 0)) as [->|Hj0].
        -- change (seqZ number 0) with (@nil Z). by rewrite List.app_nil_r, Z.add_0_r.
        -- replace j with ((j - 1) + 1) at 1 by lia. rewrite Hseq by lia.
           replace (number + j) with (number + 1 + (j - 1)) by lia. apply Hok. lia.
      * destruct r as [err|].
        -- destruct Hr as [Hlt Hs]. split; [lia|]. rewrite Hseq by lia.
           replace (number + (k + 1)) with (number + 1 + k) by lia. exact Hs.
        -- lia.
  - exists 0, None. change (seqZ number 0) with (@nil Z). rewrite List.app_nil_r.
    repeat split; try lia; done.
Qed.

Lemma CountUp_loop_forever :
  (forall sent number, send sent number = None) ->
  forall fuel number sent,
    number <= maxInt64 -> CountUp_loop send fuel number maxInt64 sent = None.
Proof.
  intros Hsend. induction fuel as [|fuel IH]; intros number sent Hle; [done|].
  cbn [CountUp_loop]. destruct (Z.leb_spec number maxInt64); [|lia].
  rewrite Hsend. apply IH. unfold addInt64. apply toInt64_range.
Qed.

Lemma CountUp_returns N :
  N < maxInt64 -> exists out, CountUp_loop send (S (Z.to_nat N)) 1 N [] = Some out.
Proof.
  intros HN.
  destruct (CountUp_loop_spec N HN (S (Z.to_nat N)) 1 []) as (k & r & _ & Hrun & _).
  - unfold minInt64. lia.
  - lia.
  - eauto.
Qed.

End CountUp_facts.

(** X20: for a request number [N] below the largest [int64], [CountUp]
    returns once it has fuel for [N] + 1 rounds; it has then sent 1, 2, ...
    in order and without gaps, up to [N] when every [Send] succeeded (nothing
    at all when [N] is zero or negative) and the call returns [nil], or up
    to the first [Send] that failed, whose error it returns. *)
Theorem CountUp_counts (send : Sender) (N : Z) (fuel : nat) :
  N < maxInt64 ->
  (Z.to_nat N < fuel)%nat ->
  exists k r,
    0 <= k <= Z.max 0 N
    /\ CountUp send fuel N = Some (seqZ 1 k, r)
    /\ (forall j, 0 <= j < k -> send (seqZ 1 j) (j + 1) = None)
    /\ match r with
       | None => k = Z.max 0 N
       | Some err => k < N /\ send (seqZ 1 k) (k + 1) = Some err
       end.
Proof.
  intros HN Hfuel.
  destruct (CountUp_loop_spec send N HN fuel 1 []) as (k & r & Hk & Hrun & Hok & Hr).
  - unfold minInt64. lia.
  - replace (N - 1 + 1) with N by lia. exact Hfuel.
  - replace (N - 1 + 1) with N in * by lia.
    exists k, r. split; [exact Hk|]. split; [exact Hrun|]. split.
    + intros j Hj. specialize (Hok j Hj). cbn [app] in Hok.
      by replace (j + 1) with (1 + j) by lia.
    + destruct r as [err|]; [|exact Hr]. destruct Hr as [Hlt Hs]. split; [exact Hlt|].
      cbn [app] in Hs. by replace (k + 1) with (1 + k) by lia.
Qed.

Lemma CountUp_counts_witness :
  exists k r,
    0 <= k <= Z.max 0 5
    /\ CountUp (fun _ number => if number =? 3 then Some ContextCanceled else None) 6 5
       = Some (seqZ 1 k, r)
    /\ (forall j, 0 <= j < k ->
        (fun _ number => if number =? 3 then Some ContextCanceled else None)
          (seqZ 1 j) (j + 1) = None)
    /\ match r with
       | None => k = Z.max 0 5
       | Some err =>
           k < 5
           /\ (fun _ number => if number =? 3 then Some ContextCanceled else None)
                (seqZ 1 k) (k + 1) = Some err
       end.
Proof.
  apply (CountUp_counts
           (fun _ number => if number =? 3 then Some ContextCanceled else None) 5 6).
  - vm_compute. reflexivity.
  - vm_compute. lia.
Defined.

(** X21: on a stream whose [Send] never fails, [CountUp] returns for every
    request number except the largest [int64]: there the counter wraps
    around to the smallest [int64] instead of passing the bound, and the
    loop never ends. *)
Theorem CountUp_terminates_iff (send : Sender) (N : Z) :
  minInt64 <= N <= maxInt64 ->
  (forall sent number, send sent number = None) ->
  (exists fuel, CountUp send fuel N <> None) <-> N <> maxInt64.
Proof.
  intros HN Hsend. split.
  - intros [fuel Hrun] ->. apply Hrun. apply CountUp_loop_forever; [exact Hsend|].
    unfold maxInt64. lia.
  - intros Hne. exists (S (Z.to_nat N)).
    destruct (CountUp_returns send N) as (out & Hrun); [lia|].
    unfold CountUp. rewrite Hrun. discriminate.
Qed.

Lemma CountUp_terminates_iff_witness :
  ~ exists fuel, CountUp (fun _ _ => None) fuel maxInt64 <> None.
Proof.
  intros H. apply (CountUp_terminates_iff (fun _ _ => None) maxInt64) in H.
  - by apply H.
  - vm_compute. split; discriminate.
  - reflexivity.
Defined.

Section CumSum_facts.
Variables (send : Sender) (closing : goerror) (numbers : list Z).

Lemma prefixSums_S k :
  prefixSums numbers (S k)
  = (prefixSums numbers k ++ [strconv.toInt64 (sumZ (take (S k) numbers))])%list.
Proof. unfold prefixSums. by rewrite seq_S, map_app. Qed.

Lemma prefixSums_length k : length (prefixSums numbers k) = k.
Proof. unfold prefixSums. by rewrite length_map, length_seq. Qed.

Lemma CumSum_loop_spec :
  forall messages k sum sent,
    drop k numbers = messages ->
    (k <= length numbers)%nat ->
    sum = strconv.toInt64 (sumZ (take k numbers)) ->
    sent = prefixSums numbers k ->
    exists k',
      (k <= k' <= length numbers)%nat
      /\ fst (CumSum_loop send closing messages sum sent) = prefixSums numbers k'
      /\ (forall i, (k <= i < k')%nat ->
          send (prefixSums numbers i) (strconv.toInt64 (sumZ (take (S i) numbers))) = None)
      /\ match snd (CumSum_loop send closing messages sum sent) with
         | None => k' = length numbers /\ errors_Is closing io_EOF = true
         | Some err =>
             (k' = length numbers /\ err = closing /\ errors_Is closing io_EOF = false)
             \/ ((k' < length numbers)%nat
                 /\ send (prefixSums numbers k')
                      (strconv.toInt64 (sumZ (take (S k') numbers))) = Some err)
         end.
Proof.
  induction messages as [|number rest IH]; intros k sum sent Hdrop Hk Hsum Hsent.
  - assert (k = length numbers) as Hlen.
    { apply (f_equal length) in Hdrop. rewrite length_drop in Hdrop. cbn in Hdrop. lia. }
    exists k. cbn [CumSum_loop]. split; [lia|].
    destruct (errors_Is closing io_EOF) eqn:Heof; cbn [fst snd].
    + split; [done|]. split; [intros i Hi; lia|]. done.
    + split; [done|]. split; [intros i Hi; lia|]. left. done.
  - assert (Hlook : numbers !! k = Some number).
    { replace k with (k + 0)%nat by lia. by rewrite <- lookup_drop, Hdrop. }
    assert (Hrest : drop (S k) numbers = rest).
    { replace (S k) with (k + 1)%nat by lia. by rewrite <- drop_drop, Hdrop. }
    assert (Hlt : (k < length numbers)%nat) by (by apply lookup_lt_Some in Hlook).
    assert (Hsum' : addInt64 sum number = strconv.toInt64 (sumZ (take (S k) numbers))).
    { unfold addInt64. rewrite Hsum, toInt64_add_l.
      rewrite (take_S_r _ _ _ Hlook), sumZ_app. unfold sumZ at 3. cbn [foldr].
      f_equal. lia. }
    cbn [CumSum_loop]. cbv zeta. rewrite Hsum'.
    destruct (send sent _) as [err|] eqn:Hsend.
    + exists k. cbn [fst snd]. split; [lia|]. split; [done|].
      split; [intros i Hi; lia|]. right. split; [done|]. by rewrite <- Hsent.
    + destruct (IH (S k) (strconv.toInt64 (sumZ (take (S k) numbers)))
                  (sent ++ [strconv.toInt64 (sumZ (take (S k) numbers))])%list)
        as (k' & Hk' & Hfst & Hok & Hres); [done | lia | done | |].
      { by rewrite prefixSums_S, Hsent. }
      exists k'. split; [lia|]. split; [exact Hfst|]. split; [|exact Hres].
      intros i Hi. destruct (decide (i = k)) as [->|Hne].
      * by rewrite <- Hsent.
      * apply Hok. lia.
Qed.

End CumSum_facts.

(** X22: what [CumSum] has sent when it returns is the sequence of running
    sums of the numbers received: the i-th value is the exact sum of the
    first i numbers wrapped to 64 bits.  It returns [nil] exactly when every
    number was answered and the error that ended the stream is [io.EOF] or
    wraps it; otherwise it returns the error of the first [Send] that
    failed, or the error that ended the stream. *)
Theorem CumSum_running_sums (stream : BidiStream) :
  exists k : nat,
    (k <= length (bsMessages stream))%nat
    /\ fst (CumSum stream) = prefixSums (bsMessages stream) k
    /\ (forall i, (i < k)%nat ->
        bsSend stream (prefixSums (bsMessages stream) i)
          (strconv.toInt64 (sumZ (take (S i) (bsMessages stream)))) = None)
    /\ match snd (CumSum stream) with
       | None => k = length (bsMessages stream) /\ errors_Is (bsErr stream) io_EOF = true
       | Some err =>
           (k = length (bsMessages stream) /\ err = bsErr stream
            /\ errors_Is (bsErr stream) io_EOF = false)
           \/ ((k < length (bsMessages stream))%nat
               /\ bsSend stream (prefixSums (bsMessages stream) k)
                    (strconv.toInt64 (sumZ (take (S k) (bsMessages stream)))) = Some err)
       end.
Proof.
  destruct stream as [numbers closing send]. cbn [bsMessages bsErr bsSend]. unfold CumSum.
  cbn [bsMessages bsErr bsSend].
  destruct (CumSum_loop_spec send closing numbers numbers 0%nat 0 [])
    as (k & Hk & Hfst & Hok & Hres); [done | lia | done | done |].
  exists k. split; [lia|]. split; [exact Hfst|]. split; [|exact Hres].
  intros i Hi. apply Hok. lia.
Qed.

(** X23: when [CumSum] returns [nil] after at least one message, the last
    sum it sent is the answer [Sum] gives for the same messages. *)
Theorem CumSum_ends_with_Sum (stream : BidiStream) :
  snd (CumSum stream) = None ->
  bsMessages stream <> [] ->
  exists s,
    last (fst (CumSum stream)) = Some s
    /\ Sum (mkClientStream (bsMessages stream) None) = Ok s.
Proof.
  destruct stream as [numbers closing send]. cbn [bsMessages]. intros Hnil Hne.
  unfold CumSum in *. cbn [bsMessages bsErr bsSend] in *.
  destruct (CumSum_loop_spec send closing numbers numbers 0%nat 0 [])
    as (k & _ & Hfst & _ & Hres); [done | lia | done | done |].
  rewrite Hnil in Hres. destruct Hres as [-> _]. rewrite Hfst.
  destruct numbers as [|n numbers]; [done|]. cbn [length].
  exists (strconv.toInt64 (sumZ (n :: numbers))). split.
  - rewrite prefixSums_S, last_snoc. change (S (length numbers)) with (length (n :: numbers)).
    by rewrite firstn_all.
  - unfold Sum. cbn [csMessages csErr]. by rewrite Sum_loop_exact.
Qed.

Lemma CumSum_ends_with_Sum_witness :
  exists s,
    last (fst (CumSum (mkBidiStream [1; 2; 3] io_EOF (fun _ _ => None)))) = Some s
    /\ Sum (mkClientStream [1; 2; 3] None) = Ok s.
Proof.
  apply (CumSum_ends_with_Sum (mkBidiStream [1; 2; 3] io_EOF (fun _ _ => None))).
  - vm_compute. reflexivity.
  - discriminate.
Defined.
